(** * specialoffer: the scraper's fetch-with-retry and listing extraction

    A shallow embedding of [scrapers.py] (class [NovaAutoScraper]) together
    with the settings object of [config.py].

    Python effects are threaded explicitly:
    - the outside world (network, the [fake_useragent] generator, the
      [random] module) is a [world] of oracles indexed by how many times
      each has been consulted so far;
    - what the program does to the world ([time.sleep], [session.get],
      [logging]) is appended to a chronological [trace];
    - exceptions are a [result] carried next to the state, so that effects
      performed before a [raise] stay visible. *)

From Stdlib Require Import ZArith QArith Lia Lqa Ascii.
From stdpp Require Import base list strings gmap pretty.

Open Scope Z_scope.

(** ** Exceptions *)

(** The exception classes this program can meet.  All of them derive from
    Python's [Exception]; the three network classes derive from
    [requests.RequestException]. *)
Inductive exn_class :=
  | ConnectionError
  | ReadTimeout
  | HTTPError
  | AttributeError
  | KeyError
  | TypeError
  | ValueError
  | SelectorSyntaxError
  | RuntimeError.

Record exn := Exn { exn_type : exn_class; exn_str : string }.

(** [isinstance(e, requests.RequestException)] *)
Definition is_RequestException (e : exn) : bool :=
  match exn_type e with
  | ConnectionError | ReadTimeout | HTTPError => true
  | _ => false
  end.

Inductive result (A : Type) :=
  | Return (a : A)
  | Raise (e : exn).
Arguments Return {A} a.
Arguments Raise {A} e.

Definition raised {A} (r : result A) : bool :=
  match r with Return _ => false | Raise _ => true end.

Definition returned {A} (r : result A) : option A :=
  match r with Return a => Some a | Raise _ => None end.

(** ** The world and the trace *)

Record request := Request {
  req_url : string;
  req_timeout : Z;
  req_headers : gmap string string
}.

Record Response := mkResponse {
  status_code : Z;
  content : string
}.

Inductive level := INFO | WARNING | ERROR.

Inductive event :=
  | Sleep (secs : Q)
  | Get (r : request)
  | Log (lvl : level) (msg : string).

(** config.py: the [SCRAPER_CONFIG] dictionary. *)
Record scraper_config := ScraperConfig {
  base_url : string;
  timeout : Z;
  max_retries : Z;
  delay_range : Z * Z;
  user_agents : list string;
  output_file : string
}.

Definition SCRAPER_CONFIG : scraper_config := {|
  base_url := "https://novaautoland.com";
  timeout := 15;
  max_retries := 3;
  delay_range := (1, 5);
  user_agents := [
    "Mozilla/5.0 (Windows NT 10.0; Win64; x64) AppleWebKit/537.36 (KHTML, like Gecko) Chrome/91.0.4472.124 Safari/537.36";
    "Mozilla/5.0 (Macintosh; Intel Mac OS X 10_15_7) AppleWebKit/537.36 (KHTML, like Gecko) Chrome/91.0.4472.114 Safari/537.36"
  ];
  output_file := "scraped_data.json"
|}.

(** Everything the interpreter can reach that the program does not decide:
    the contents of the [config] module (importable, whether or not anybody
    imports it), what the [k]-th [session.get] answers, what the [k]-th
    [UserAgent().random] yields, and the [k]-th sample of [random.random()]
    in the unit interval. *)
Record world := World {
  config_py : scraper_config;
  network : nat -> request -> result Response;
  fake_useragent : nat -> string;
  random_random : nat -> Q
}.

Record state := State {
  gets : nat;
  uas : nat;
  draws : nat;
  trace : list event
}.

Definition initial : state := State 0 0 0 [].

(** ** A state-and-exception monad *)

Definition M (A : Type) : Type := state -> result A * state.

Definition ret {A} (a : A) : M A := fun s => (Return a, s).

Definition bind {A B} (m : M A) (f : A -> M B) : M B :=
  fun s => match m s with
           | (Return a, s') => f a s'
           | (Raise e, s') => (Raise e, s')
           end.

Definition raise {A} (e : exn) : M A := fun s => (Raise e, s).

(** [try: body  except <class> as e: handler e]; the handler is [None] for
    an exception the clause does not match, which then keeps propagating. *)
Definition try_except {A} (body : M A) (handler : exn -> option (M A)) : M A :=
  fun s => match body s with
           | (Return a, s') => (Return a, s')
           | (Raise e, s') =>
               match handler e with
               | Some h => h s'
               | None => (Raise e, s')
               end
           end.

(** [except requests.RequestException as e] *)
Definition except_RequestException {A} (h : exn -> M A) (e : exn) : option (M A) :=
  if is_RequestException e then Some (h e) else None.

(** [except Exception as e] *)
Definition except_Exception {A} (h : exn -> M A) (e : exn) : option (M A) :=
  Some (h e).

Declare Scope py_scope.
Delimit Scope py_scope with py.
Notation "x <- m ;; k" := (bind m (fun x => k))
  (at level 100, m at next level, right associativity) : py_scope.
Notation "m ;; k" := (bind m (fun _ => k))
  (at level 100, right associativity) : py_scope.
Open Scope py_scope.

(** The state as it is now. *)
Definition snapshot : M state := fun s => (Return s, s).

Definition emit (e : event) : M unit :=
  fun s => (Return tt, State (gets s) (uas s) (draws s) (trace s ++ [e])).

Definition time_sleep (secs : Q) : M unit := emit (Sleep secs).
Definition logging_info (msg : string) : M unit := emit (Log INFO msg).
Definition logging_warning (msg : string) : M unit := emit (Log WARNING msg).
Definition logging_error (msg : string) : M unit := emit (Log ERROR msg).

(** [random.uniform(a, b)] is [a + (b - a) * random.random()]. *)
Definition random_uniform (w : world) (a b : Z) : M Q :=
  fun s => (Return (inject_Z a + (inject_Z b - inject_Z a) * random_random w (draws s))%Q,
            State (gets s) (uas s) (S (draws s)) (trace s)).

(** [UserAgent().random] *)
Definition ua_random (w : world) : M string :=
  fun s => (Return (fake_useragent w (uas s)),
            State (gets s) (S (uas s)) (draws s) (trace s)).

(** ** scrapers.py: module level *)

(** The module's global names, as a function of the module reads them when
    it is called. *)
Record globals := Globals {
  BASE_URL : string;
  REQUEST_DELAY : Q;
  MAX_RETRIES : Z;
  TIMEOUT : Z
}.

(** Executing the module body (on [import scrapers]). *)
Definition import_scrapers (w : world) : M globals :=
  delay <- random_uniform w 1 5 ;;
  ret {| BASE_URL := "https://novaautoland.com";
         REQUEST_DELAY := delay;
         MAX_RETRIES := 3;
         TIMEOUT := 10 |}.

(** ** class NovaAutoScraper *)

(** [self.ua] is a handle on the generator and [self.session] a
    [requests.Session], of which the headers are what this program sets. *)
Record NovaAutoScraper := Scraper {
  session_headers : gmap string string
}.

(** The headers of a fresh [requests.Session()]. *)
Definition default_headers : gmap string string :=
  {[ "User-Agent" := "python-requests";
     "Accept-Encoding" := "gzip, deflate";
     "Accept" := "*/*";
     "Connection" := "keep-alive" ]}.

(** [dict.update]: the keys of [new] win. *)
Definition dict_update (old new : gmap string string) : gmap string string :=
  new ∪ old.

Definition __init__ (w : world) (g : globals) : M NovaAutoScraper :=
  ua <- ua_random w ;;
  ret (Scraper (dict_update default_headers
                  {[ "User-Agent" := ua;
                     "Accept-Language" := "en-US,en;q=0.9";
                     "Referer" := BASE_URL g ]})).

(** [self.session.get(url, timeout=..., headers=...)]: the headers of the
    call are merged over those of the session, the request goes out, and
    the world answers with a response or a raised exception. *)
Definition session_get (w : world) (self : NovaAutoScraper)
    (url : string) (tmo : Z) (headers : gmap string string) : M Response :=
  fun s =>
    let r := Request url tmo (dict_update (session_headers self) headers) in
    (network w (gets s) r,
     State (S (gets s)) (uas s) (draws s) (trace s ++ [Get r])).

(** [response.raise_for_status()]: an [HTTPError] for 4xx and 5xx. *)
Definition raise_for_status (r : Response) : M unit :=
  if (400 <=? status_code r) && (status_code r <? 600)
  then raise (Exn HTTPError (pretty (status_code r) +:+ " Error"))
  else ret tt.

(** What the loop of [get_with_retry] does after one iteration. *)
Inductive flow (A : Type) :=
  | Returned (a : A)
  | NextIteration.
Arguments Returned {A} a.
Arguments NextIteration {A}.

(** The [try] block of one iteration. *)
Definition attempt_body (w : world) (g : globals) (self : NovaAutoScraper)
    (url : string) : M Response :=
  time_sleep (REQUEST_DELAY g) ;;
  ua <- ua_random w ;;
  response <- session_get w self url (TIMEOUT g) {[ "User-Agent" := ua ]} ;;
  raise_for_status response ;;
  ret response.

(** The [except requests.RequestException as e] block. *)
Definition attempt_handler (g : globals) (url : string) (attempt : Z)
    (e : exn) : M (flow Response) :=
  logging_warning ("Attempt " +:+ pretty (attempt + 1) +:+ " failed: " +:+ exn_str e) ;;
  (if attempt =? MAX_RETRIES g - 1
   then (logging_error ("Max retries reached for " +:+ url) ;; raise e)
   else ret tt) ;;
  time_sleep (inject_Z (2 ^ attempt)) ;;
  ret NextIteration.

(** [for attempt in attempts: ...]; falling out of the loop returns [None]. *)
Fixpoint get_with_retry_loop (w : world) (g : globals) (self : NovaAutoScraper)
    (url : string) (attempts : list Z) : M (option Response) :=
  match attempts with
  | [] => ret None
  | attempt :: rest =>
      f <- try_except
             (response <- attempt_body w g self url ;; ret (Returned response))
             (except_RequestException (attempt_handler g url attempt)) ;;
      match f with
      | Returned response => ret (Some response)
      | NextIteration => get_with_retry_loop w g self url rest
      end
  end.

(** [range(n)] *)
Definition range (n : Z) : list Z := seqZ 0 n.

Definition get_with_retry (w : world) (g : globals) (self : NovaAutoScraper)
    (url : string) : M (option Response) :=
  get_with_retry_loop w g self url (range (MAX_RETRIES g)).

(** ** The HTML library, as the scraper uses it *)

(** What is asked of [bs4]: parsing a body, CSS selection below a node,
    stripped text, and attribute access.  The operations are functions of
    the document alone, and any of them may raise (Python checks nothing
    beforehand).  A [Tag] is always truthy, so [if found] asks whether
    [select_one] found anything. *)
Class Bs4 (node : Type) := {
  BeautifulSoup : string -> result node;
  select : node -> string -> result (list node);
  select_one : node -> string -> result (option node);
  get_text_strip : node -> result string;
  has_attr : node -> string -> result bool;
  getitem : node -> string -> result string
}.

Definition lift {A} (r : result A) : M A := fun s => (r, s).

(** ** Python string methods *)

Module Str.

Fixpoint string_map (f : ascii -> ascii) (s : string) : string :=
  match s with
  | EmptyString => EmptyString
  | String a s' => String (f a) (string_map f s')
  end.

Fixpoint string_forall (p : ascii -> bool) (s : string) : bool :=
  match s with
  | EmptyString => true
  | String a s' => p a && string_forall p s'
  end.

(** [s.partition(c)]: the text before the first [c], and, when there is
    one, the text after it. *)
Fixpoint partition (c : ascii) (s : string) : string * option string :=
  match s with
  | EmptyString => (EmptyString, None)
  | String a s' =>
      if bool_decide (a = c) then (EmptyString, Some s')
      else let '(l, r) := partition c s' in (String a l, r)
  end.

(** The text up to the first of the delimiters, and the rest from there. *)
Fixpoint span_until (stop : ascii -> bool) (s : string) : string * string :=
  match s with
  | EmptyString => (EmptyString, EmptyString)
  | String a s' =>
      if stop a then (EmptyString, s)
      else let '(l, r) := span_until stop s' in (String a l, r)
  end.

(** [s.split(c)] *)
Fixpoint split (c : ascii) (s : string) : list string :=
  match s with
  | EmptyString => [EmptyString]
  | String a s' =>
      if bool_decide (a = c) then EmptyString :: split c s'
      else match split c s' with
           | [] => [String a EmptyString]
           | x :: xs => String a x :: xs
           end
  end.

(** [c.join(l)] *)
Fixpoint join (c : string) (l : list string) : string :=
  match l with
  | [] => EmptyString
  | [x] => x
  | x :: xs => x +:+ c +:+ join c xs
  end.

Fixpoint lstrip (p : ascii -> bool) (s : string) : string :=
  match s with
  | EmptyString => EmptyString
  | String a s' => if p a then lstrip p s' else s
  end.

Definition strip (p : ascii -> bool) (s : string) : string :=
  String.rev (lstrip p (String.rev (lstrip p s))).

Fixpoint string_filter (p : ascii -> bool) (s : string) : string :=
  match s with
  | EmptyString => EmptyString
  | String a s' => if p a then String a (string_filter p s') else string_filter p s'
  end.

Fixpoint string_exists (p : ascii -> bool) (s : string) : bool :=
  match s with
  | EmptyString => false
  | String a s' => p a || string_exists p s'
  end.

End Str.

(** ** urllib.parse.urljoin *)

(** [urljoin] belongs to Python's standard library, not to this repository.
    What follows is its algorithm (RFC 3986, section 5.2, the way CPython
    3.11's [urllib.parse] carries it out) over byte strings. *)
Module Url.
Import Str.

Definition lower (a : ascii) : ascii :=
  let n := nat_of_ascii a in
  if ((65 <=? n) && (n <=? 90))%nat then ascii_of_nat (n + 32) else a.

Definition is_alpha (a : ascii) : bool :=
  let n := nat_of_ascii (lower a) in ((97 <=? n) && (n <=? 122))%nat.

Definition is_digit (a : ascii) : bool :=
  let n := nat_of_ascii a in ((48 <=? n) && (n <=? 57))%nat.

(** [scheme_chars]: letters, digits and [+-.] *)
Definition is_scheme_char (a : ascii) : bool :=
  is_alpha a || is_digit a
  || bool_decide (a = "+"%char) || bool_decide (a = "-"%char)
  || bool_decide (a = "."%char).

Record parts := Parts {
  scheme : string;
  netloc : string;
  path : string;
  params : string;
  query : string;
  fragment : string
}.

Definition uses_relative : list string :=
  [""; "ftp"; "http"; "gopher"; "nntp"; "imap"; "wais"; "file"; "https";
   "shttp"; "mms"; "prospero"; "rtsp"; "rtspu"; "sftp"; "svn"; "svn+ssh";
   "ws"; "wss"].

Definition uses_netloc : list string :=
  [""; "ftp"; "http"; "gopher"; "nntp"; "telnet"; "imap"; "wais"; "file";
   "mms"; "https"; "shttp"; "snews"; "prospero"; "rtsp"; "rtspu"; "rsync";
   "svn"; "svn+ssh"; "sftp"; "nfs"; "git"; "git+ssh"; "ws"; "wss"].

Definition uses_params : list string :=
  [""; "ftp"; "hdl"; "prospero"; "http"; "imap"; "https"; "shttp"; "rtsp";
   "rtspu"; "sip"; "sips"; "mms"; "sftp"; "tel"].

Definition mem (s : string) (l : list string) : bool := bool_decide (s ∈ l).

Definition starts_with_slashes (s : string) : bool :=
  match s with
  | String "/" (String "/" _) => true
  | _ => false
  end.

Definition drop2 (s : string) : string :=
  match s with
  | String _ (String _ r) => r
  | _ => s
  end.

(** [_WHATWG_C0_CONTROL_OR_SPACE]: the bytes up to the space. *)
Definition is_c0_or_space (a : ascii) : bool := (nat_of_ascii a <=? 32)%nat.

(** [_UNSAFE_URL_BYTES_TO_REMOVE]: tab, carriage return, line feed. *)
Definition is_unsafe (a : ascii) : bool :=
  let n := nat_of_ascii a in
  ((n =? 9) || (n =? 13) || (n =? 10))%nat.

Definition remove_unsafe (s : string) : string :=
  string_filter (fun a => negb (is_unsafe a)) s.

(** [urlsplit(url, scheme)]: scheme, netloc, path, query, fragment.  A
    netloc whose square brackets do not pair up is an invalid IPv6 URL;
    the address between paired brackets is not examined here, nor is the
    NFKC form of a netloc beyond ASCII. *)
Definition urlsplit (url default_scheme : string)
    : result (string * string * string * string * string) :=
  let url := remove_unsafe (lstrip is_c0_or_space url) in
  let default_scheme := remove_unsafe (strip is_c0_or_space default_scheme) in
  let '(sch, rest) :=
    match partition ":" url with
    | (String a s, Some r) =>
        if is_alpha a && string_forall is_scheme_char s
        then (string_map lower (String a s), r)
        else (default_scheme, url)
    | _ => (default_scheme, url)
    end in
  let '(net, rest) :=
    if starts_with_slashes rest
    then span_until (fun a => bool_decide (a = "/"%char)
                              || bool_decide (a = "?"%char)
                              || bool_decide (a = "#"%char)) (drop2 rest)
    else (EmptyString, rest) in
  let opening := string_exists (fun a => bool_decide (a = "["%char)) net in
  let closing := string_exists (fun a => bool_decide (a = "]"%char)) net in
  if (opening && negb closing) || (closing && negb opening)
  then Raise (Exn ValueError "Invalid IPv6 URL")
  else
    let '(rest, frag) :=
      match partition "#" rest with
      | (l, Some r) => (l, r)
      | (l, None) => (l, EmptyString)
      end in
    let '(pth, qry) :=
      match partition "?" rest with
      | (l, Some r) => (l, r)
      | (l, None) => (l, EmptyString)
      end in
    Return (sch, net, pth, qry, frag).

(** [_splitparams]: the parameters follow the first [;] of the last path
    segment. *)
Definition splitparams (pth : string) : string * string :=
  let segs := split "/" pth in
  match reverse segs with
  | [] => (pth, EmptyString)
  | last_seg :: before =>
      match partition ";" last_seg with
      | (l, Some r) => (join "/" (reverse (l :: before)), r)
      | (_, None) => (pth, EmptyString)
      end
  end.

Definition urlparse (url default_scheme : string) : result parts :=
  match urlsplit url default_scheme with
  | Raise e => Raise e
  | Return (sch, net, pth, qry, frag) =>
      let '(pth, prm) :=
        if mem sch uses_params then splitparams pth else (pth, EmptyString) in
      Return (Parts sch net pth prm qry frag)
  end.

Definition nonempty (s : string) : bool :=
  match s with EmptyString => false | _ => true end.

Definition starts_with_slash (s : string) : bool :=
  match s with String "/" _ => true | _ => false end.

Definition urlunsplit (sch net pth qry frag : string) : string :=
  let url :=
    if nonempty net || (nonempty sch && mem sch uses_netloc
                        && negb (starts_with_slashes pth))
    then "//" +:+ net +:+
         (if nonempty pth && negb (starts_with_slash pth)
          then "/" +:+ pth else pth)
    else pth in
  let url := if nonempty sch then sch +:+ ":" +:+ url else url in
  let url := if nonempty qry then url +:+ "?" +:+ qry else url in
  if nonempty frag then url +:+ "#" +:+ frag else url.

Definition urlunparse (p : parts) : string :=
  urlunsplit (scheme p) (netloc p)
    (if nonempty (params p) then path p +:+ ";" +:+ params p else path p)
    (query p) (fragment p).

(** Dot segments are resolved against the stack of segments seen so far;
    a [..] with nothing to pop is ignored. *)
Fixpoint resolve (segments resolved : list string) : list string :=
  match segments with
  | [] => resolved
  | seg :: rest =>
      if bool_decide (seg = "..") then resolve rest (removelast resolved)
      else if bool_decide (seg = ".") then resolve rest resolved
      else resolve rest (resolved ++ [seg])
  end.

(** [segments[1:-1] = filter(None, segments[1:-1])] *)
Definition squeeze (segments : list string) : list string :=
  match segments with
  | [] => []
  | first :: rest =>
      match reverse rest with
      | [] => [first]
      | last_seg :: middle =>
          first :: filter (fun s => nonempty s = true) (reverse middle)
                ++ [last_seg]
      end
  end.

(** After both URLs are parsed. *)
Definition join_parsed (url : string) (b u : parts) : string :=
  if negb (bool_decide (scheme u = scheme b))
     || negb (mem (scheme u) uses_relative)
  then url
  else if mem (scheme u) uses_netloc && nonempty (netloc u)
  then urlunparse u
  else
    let net := if mem (scheme u) uses_netloc then netloc b else netloc u in
    if negb (nonempty (path u)) && negb (nonempty (params u))
    then urlunparse (Parts (scheme u) net (path b) (params b)
                       (if nonempty (query u) then query u else query b)
                       (fragment u))
    else
      let base_parts := split "/" (path b) in
      let base_parts :=
        if nonempty (List.last base_parts EmptyString)
        then removelast base_parts else base_parts in
      let segments :=
        if starts_with_slash (path u) then split "/" (path u)
        else squeeze (base_parts ++ split "/" (path u)) in
      let resolved := resolve segments [] in
      let last_seg := List.last segments EmptyString in
      let resolved :=
        if bool_decide (last_seg = ".") || bool_decide (last_seg = "..")
        then resolved ++ [EmptyString] else resolved in
      let joined := join "/" resolved in
      urlunparse (Parts (scheme u) net
                    (if nonempty joined then joined else "/")
                    (params u) (query u) (fragment u)).

Definition urljoin (base url : string) : result string :=
  if negb (nonempty base) then Return url
  else if negb (nonempty url) then Return base
  else
    match urlparse base EmptyString with
    | Raise e => Raise e
    | Return b =>
        match urlparse url (scheme b) with
        | Raise e => Raise e
        | Return u => Return (join_parsed url b u)
        end
    end.

End Url.

(** What is asked of [urllib.parse]. *)
Class Urllib := {
  urljoin : string -> string -> result string
}.

(** ** NovaAutoScraper: extraction *)

(** One scraped vehicle: the dictionary with the keys [title], [price],
    [mileage], [link] and [image]; [None] is Python's [None]. *)
Record vehicle := Vehicle {
  title : option string;
  price : option string;
  mileage : option string;
  link : option string;
  image : option string
}.

Section Extraction.

Context {node : Type} {bs4 : Bs4 node} {urllib : Urllib}.

(** [found.get_text(strip=True) if found else None] *)
Definition _get_text (element : node) (selector : string) : M (option string) :=
  found <- lift (select_one element selector) ;;
  match found with
  | Some found => text <- lift (get_text_strip found) ;; ret (Some text)
  | None => ret None
  end.

(** [urljoin(BASE_URL, found['href']) if found and found.has_attr('href')
    else None] *)
Definition _get_link (g : globals) (element : node) (selector : string)
    : M (option string) :=
  found <- lift (select_one element selector) ;;
  match found with
  | Some found =>
      present <- lift (has_attr found "href") ;;
      if present : bool
      then href <- lift (getitem found "href") ;;
           url <- lift (urljoin (BASE_URL g) href) ;;
           ret (Some url)
      else ret None
  | None => ret None
  end.

(** [found['src'] if found and found.has_attr('src') else None] *)
Definition _get_image (element : node) (selector : string) : M (option string) :=
  found <- lift (select_one element selector) ;;
  match found with
  | Some found =>
      present <- lift (has_attr found "src") ;;
      if present : bool
      then src <- lift (getitem found "src") ;; ret (Some src)
      else ret None
  | None => ret None
  end.

(** The dictionary display of the inner [try] block; its values are
    evaluated in the order written. *)
Definition build_vehicle (g : globals) (listing : node) : M vehicle :=
  t <- _get_text listing "h2.vehicle-title" ;;
  p <- _get_text listing ".price" ;;
  m <- _get_text listing ".mileage" ;;
  l <- _get_link g listing "a.vehicle-link" ;;
  i <- _get_image listing "img.vehicle-image" ;;
  ret (Vehicle t p m l i).

(** [for listing in listings: try: ... vehicles.append(vehicle)
    except Exception as e: logging.error(...); continue] *)
Fixpoint listings_loop (g : globals) (listings : list node)
    (vehicles : list vehicle) : M (list vehicle) :=
  match listings with
  | [] => ret vehicles
  | listing :: rest =>
      vehicles <- try_except
                    (v <- build_vehicle g listing ;; ret (vehicles ++ [v]))
                    (except_Exception (fun e =>
                       logging_error ("Error processing listing: " +:+ exn_str e) ;;
                       ret vehicles)) ;;
      listings_loop g rest vehicles
  end.

(** [response.content]; [response] is [None] when the retry loop ran out
    without returning or raising. *)
Definition response_content (response : option Response) : M string :=
  match response with
  | Some r => ret (content r)
  | None => raise (Exn AttributeError "'NoneType' object has no attribute 'content'")
  end.

Definition scrape_vehicle_listings (w : world) (g : globals)
    (self : NovaAutoScraper) : M (list vehicle) :=
  try_except
    (logging_info ("Starting scrape of " +:+ BASE_URL g) ;;
     response <- get_with_retry w g self (BASE_URL g) ;;
     body <- response_content response ;;
     soup <- lift (BeautifulSoup body) ;;
     listings <- lift (select soup "div.vehicle-listing") ;;
     vehicles <- listings_loop g listings [] ;;
     logging_info ("Successfully scraped " +:+ pretty (length vehicles) +:+ " vehicles") ;;
     ret vehicles)
    (except_Exception (fun e =>
       logging_error ("Scraping failed: " +:+ exn_str e) ;;
       ret [])).

End Extraction.

(** ** bs4 on a document tree *)

(** The parsed document as [bs4] holds it: tags with a name, attributes and
    contents, and the strings between them.  The [class] attribute is kept
    apart, as the list of class names [bs4] makes of it; [attrs] holds the
    single-valued attributes. *)
Module Dom.

#[warnings="-register-all"]
Inductive tag :=
  | Tag (name : string) (classes : list string)
        (attrs : gmap string string) (contents : list tag)
  | NavigableString (s : string).

(** [str.isspace] on the ASCII range: tab to carriage return, the four
    separators, and the space. *)
Definition isspace (a : ascii) : bool :=
  let n := nat_of_ascii a in
  (((9 <=? n) && (n <=? 13)) || ((28 <=? n) && (n <=? 32)))%nat.

(** [tag.descendants]: everything below a tag, in document order. *)
Fixpoint descendants (t : tag) : list tag :=
  match t with
  | NavigableString _ => []
  | Tag _ _ _ contents =>
      (fix below (l : list tag) : list tag :=
         match l with
         | [] => []
         | c :: l' => c :: descendants c ++ below l'
         end) contents
  end.

(** [tag._all_strings(strip=True)]: the strings below a tag, each one
    stripped, the empty ones left out. *)
Definition all_strings_strip (t : tag) : list string :=
  omap (fun d => match d with
                 | NavigableString s =>
                     let s := Str.strip isspace s in
                     if Url.nonempty s then Some s else None
                 | Tag _ _ _ _ => None
                 end) (descendants t).

(** A compound selector: an optional type selector and class selectors. *)
Record compound := Compound {
  sel_name : option string;
  sel_classes : list string
}.

Definition is_ident_char (a : ascii) : bool :=
  Url.is_alpha a || Url.is_digit a
  || bool_decide (a = "-"%char) || bool_decide (a = "_"%char).

Definition is_ident (s : string) : bool :=
  Url.nonempty s && Str.string_forall is_ident_char s.

(** [tag], [.class] and [tag.class.class]; any other selector syntax is
    outside what is modelled and is answered like a malformed selector. *)
Definition parse_selector (selector : string) : option compound :=
  match Str.split "." selector with
  | [] => None
  | first :: rest =>
      if forallb is_ident rest
      then match first with
           | EmptyString =>
               match rest with
               | [] => None
               | _ => Some (Compound None rest)
               end
           | _ => if is_ident first then Some (Compound (Some first) rest)
                  else None
           end
      else None
  end.

Definition matches (c : compound) (t : tag) : bool :=
  match t with
  | NavigableString _ => false
  | Tag name classes _ _ =>
      match sel_name c with
      | Some n => bool_decide (n = name)
      | None => true
      end
      && forallb (fun k => bool_decide (k ∈ classes)) (sel_classes c)
  end.

Definition tag_select (t : tag) (selector : string) : result (list tag) :=
  match parse_selector selector with
  | Some c => Return (filter (fun d => matches c d = true) (descendants t))
  | None => Raise (Exn SelectorSyntaxError ("Malformed selector: " +:+ selector))
  end.

Definition tag_select_one (t : tag) (selector : string) : result (option tag) :=
  match tag_select t selector with
  | Return l => Return (head l)
  | Raise e => Raise e
  end.

(** [tag.get_text(strip=True)] *)
Definition tag_get_text_strip (t : tag) : result string :=
  Return (Str.join EmptyString (all_strings_strip t)).

Definition tag_attrs (t : tag) : gmap string string :=
  match t with
  | Tag _ _ attrs _ => attrs
  | NavigableString _ => ∅
  end.

(** [tag.has_attr(key)] *)
Definition tag_has_attr (t : tag) (key : string) : result bool :=
  Return (bool_decide (is_Some (tag_attrs t !! key))).

(** [tag[key]] *)
Definition tag_getitem (t : tag) (key : string) : result string :=
  match tag_attrs t !! key with
  | Some v => Return v
  | None => Raise (Exn KeyError key)
  end.

(** The tree builder ([html.parser]) is taken as given: it turns any body
    into a document and never rejects one. *)
Definition tag_bs4 (html_parser : string -> tag) : Bs4 tag := {|
  BeautifulSoup body := Return (html_parser body);
  select := tag_select;
  select_one := tag_select_one;
  get_text_strip := tag_get_text_strip;
  has_attr := tag_has_attr;
  getitem := tag_getitem
|}.

End Dom.

#[export] Instance urllib_parse : Urllib := {| urljoin := Url.urljoin |}.

(** ** Observations on a run *)

(** The events a computation added to the trace. *)
Definition emitted (before after : state) : list event :=
  drop (length (trace before)) (trace after).

Definition sleep_calls (tr : list event) : list Q :=
  omap (fun e => match e with Sleep secs => Some secs | _ => None end) tr.

Definition get_calls (tr : list event) : list request :=
  omap (fun e => match e with Get r => Some r | _ => None end) tr.

Definition log_records (tr : list event) : list (level * string) :=
  omap (fun e => match e with Log lvl msg => Some (lvl, msg) | _ => None end) tr.

(** The trace without its log records: sleeps and requests. *)
Definition is_log (e : event) : bool :=
  match e with Log _ _ => true | _ => false end.

Definition io_calls (tr : list event) : list event :=
  List.filter (fun e => negb (is_log e)) tr.

(** Attempts of one call of [get_with_retry] are numbered from 0.  The
    [i]-th one, in a call entered in state [s], sends [nth_request] and its
    [try] block ends as [nth_outcome] says: the world's answer to that
    request, after [raise_for_status]. *)
Definition nth_request (w : world) (g : globals) (self : NovaAutoScraper)
    (url : string) (s : state) (i : nat) : request :=
  Request url (TIMEOUT g)
    (dict_update (session_headers self)
       {[ "User-Agent" := fake_useragent w (uas s + i) ]}).

Definition checked (o : result Response) : result Response :=
  match o with
  | Return r =>
      if (400 <=? status_code r) && (status_code r <? 600)
      then Raise (Exn HTTPError (pretty (status_code r) +:+ " Error"))
      else Return r
  | Raise e => Raise e
  end.

Definition nth_outcome (w : world) (g : globals) (self : NovaAutoScraper)
    (url : string) (s : state) (i : nat) : result Response :=
  checked (network w (gets s + i) (nth_request w g self url s i)).

(** A network or status error: what the [except] clause of
    [get_with_retry] catches. *)
Definition request_failure (o : result Response) : bool :=
  match o with
  | Raise e => is_RequestException e
  | Return _ => false
  end.

(** How many requests a computation sent. *)
Definition attempts_made (before after : state) : nat :=
  length (get_calls (emitted before after)).

(** What follows the request of attempt [i] in the trace. *)
Definition aftermath (g : globals) (url : string) (i : nat)
    (o : result Response) : list event :=
  match o with
  | Return _ => []
  | Raise e =>
      if is_RequestException e
      then Log WARNING ("Attempt " +:+ pretty (Z.of_nat i + 1) +:+ " failed: " +:+ exn_str e)
           :: (if Z.of_nat i =? MAX_RETRIES g - 1
               then [Log ERROR ("Max retries reached for " +:+ url)]
               else [Sleep (inject_Z (2 ^ Z.of_nat i))])
      else []
  end.

Definition attempt_events (w : world) (g : globals) (self : NovaAutoScraper)
    (url : string) (s : state) (i : nat) : list event :=
  Sleep (REQUEST_DELAY g) :: Get (nth_request w g self url s i)
  :: aftermath g url i (nth_outcome w g self url s i).

(** A state with more events on its trace. *)
Definition add_events (s : state) (l : list event) : state :=
  State (gets s) (uas s) (draws s) (trace s ++ l).

(** What a run of the retry loop over the attempts [k, k+1, ..., k+m-1]
    amounts to, in a call entered in state [s0]: it makes some [a <= m]
    attempts; all but the last of them failed with a request error; the
    last one decides the result. *)
Definition loop_spec (w : world) (g : globals) (self : NovaAutoScraper)
    (url : string) (s0 : state) (k m : nat) (s : state)
    (run : result (option Response) * state) : Prop :=
  exists a : nat,
    (a <= m)%nat /\
    gets run.2 = (gets s + a)%nat /\
    uas run.2 = (uas s + a)%nat /\
    draws run.2 = draws s /\
    trace run.2 = trace s ++ flat_map (attempt_events w g self url s0) (seq k a) /\
    (forall i : nat, (k <= i)%nat -> (S i < k + a)%nat ->
       request_failure (nth_outcome w g self url s0 i) = true /\
       Z.of_nat i <> MAX_RETRIES g - 1) /\
    match a with
    | O => m = O /\ run.1 = Return None
    | S a' =>
        match nth_outcome w g self url s0 (k + a') with
        | Return response => run.1 = Return (Some response)
        | Raise e => run.1 = Raise e /\ (is_RequestException e = true -> a = m)
        end
    end.

(** The sleeps and requests of one call: before each request the request
    delay, and after each request that is followed by another attempt the
    backoff of that attempt. *)
Definition schedule (w : world) (g : globals) (self : NovaAutoScraper)
    (url : string) (s : state) (a i : nat) : list event :=
  Sleep (REQUEST_DELAY g) :: Get (nth_request w g self url s i)
  :: (if (S i <? a)%nat then [Sleep (inject_Z (2 ^ Z.of_nat i))] else []).

(** ** The process *)

(** What app.py and the [__main__] block do before scraping: import the
    module, then construct the scraper. *)
Definition startup (w : world) : M (globals * NovaAutoScraper) :=
  g <- import_scrapers w ;;
  self <- __init__ w g ;;
  ret (g, self).

(** A fresh process fetching the base URL once. *)
Definition fetch_base_url (w : world) : M (option Response) :=
  gs <- startup w ;;
  get_with_retry w gs.1 gs.2 (BASE_URL gs.1).

(** The same world with other contents in config.py. *)
Definition with_config (w : world) (cfg : scraper_config) : world :=
  World cfg (network w) (fake_useragent w) (random_random w).

(** A request sent the way [SCRAPER_CONFIG] would have it: with its timeout
    and with one of its user-agent strings. *)
Definition sent_as_configured (cfg : scraper_config) (r : request) : Prop :=
  req_timeout r = timeout cfg /\
  exists ua, ua ∈ user_agents cfg /\ req_headers r !! "User-Agent" = Some ua.

(** ** Worlds to run the program in *)

Definition firefox_on_linux : string :=
  "Mozilla/5.0 (X11; Linux x86_64; rv:109.0) Gecko/20100101 Firefox/115.0".

(** Every request is answered 200 with the given body. *)
Definition serving (body : string) : world :=
  World SCRAPER_CONFIG
    (fun _ _ => Return (mkResponse 200 body))
    (fun _ => firefox_on_linux)
    (fun _ => 1 # 2)%Q.

(** The host cannot be reached. *)
Definition unreachable : world :=
  World SCRAPER_CONFIG
    (fun _ _ => Raise (Exn ConnectionError "Connection refused"))
    (fun _ => firefox_on_linux)
    (fun _ => 1 # 2)%Q.

(** The first [k] requests are answered 503, the following ones 200. *)
Definition recovering (k : nat) (body : string) : world :=
  World SCRAPER_CONFIG
    (fun i _ => if (i <? k)%nat then Return (mkResponse 503 "")
                else Return (mkResponse 200 body))
    (fun _ => firefox_on_linux)
    (fun _ => 1 # 2)%Q.

(** The module as imported, with a delay of three seconds. *)
Definition module_globals : globals :=
  Globals "https://novaautoland.com" 3 3 10.

Definition plain_scraper : NovaAutoScraper := Scraper default_headers.

(** ** Observations on a scrape *)

(** What a stateless computation yields. *)
Definition yield {A} (m : M A) : result A := (m initial).1.

Definition map_result {A B} (f : A -> B) (r : result A) : result B :=
  match r with
  | Return a => Return (f a)
  | Raise e => Raise e
  end.

(** A computation that neither reads nor changes the state. *)
Definition stateless {A} (m : M A) : Prop :=
  forall s : state, m s = ((m initial).1, s).

Section Scrape.

Context {node : Type} {bs4 : Bs4 node} {urllib : Urllib}.

(** How the extraction of one listing ends: with its record, or raising. *)
Definition extraction (g : globals) (listing : node) : result vehicle :=
  (build_vehicle g listing initial).1.

(** The records of the listings whose extraction did not raise, in the
    order of the listings. *)
Definition extracted (g : globals) (listings : list node) : list vehicle :=
  omap (fun listing => returned (extraction g listing)) listings.

(** The log records of the listings whose extraction raised. *)
Definition skipped (g : globals) (listings : list node) : list event :=
  omap (fun listing =>
          match extraction g listing with
          | Return _ => None
          | Raise e => Some (Log ERROR ("Error processing listing: " +:+ exn_str e))
          end) listings.

(** The fetch at the start of [scrape_vehicle_listings], entered in [s]. *)
Definition fetch_step (w : world) (g : globals) (self : NovaAutoScraper)
    (s : state) : result (option Response) * state :=
  get_with_retry w g self (BASE_URL g)
    (add_events s [Log INFO ("Starting scrape of " +:+ BASE_URL g)]).

(** The degraded outcome: nothing scraped, and the failure logged last. *)
Definition degraded (e : exn) (after_fetch : state)
    (run : result (list vehicle) * state) : Prop :=
  run.1 = Return [] /\
  trace run.2 = trace after_fetch ++ [Log ERROR ("Scraping failed: " +:+ exn_str e)].

(** The link of a listing, when it has one with an [href], can be resolved:
    [urljoin] does not reject it. *)
Definition link_resolves (g : globals) (listing : node) : Prop :=
  forall (anchor : node) (href : string),
    select_one listing "a.vehicle-link" = Return (Some anchor) ->
    getitem anchor "href" = Return href ->
    raised (urljoin (BASE_URL g) href) = false.

End Scrape.

(** ** Trimmed text *)

(** No byte of the class [p] at the front. *)
Definition starts_clean (p : ascii -> bool) (s : string) : bool :=
  match s with
  | EmptyString => true
  | String a _ => negb (p a)
  end.

(** Text that [str.strip] leaves as it is: no whitespace at either end. *)
Definition trimmed (s : string) : Prop := Str.strip Dom.isspace s = s.

(** The selectors written in [scrape_vehicle_listings]. *)
Definition selectors : list string :=
  ["div.vehicle-listing"; "h2.vehicle-title"; ".price"; ".mileage";
   "a.vehicle-link"; "img.vehicle-image"].

(** ** A page to scrape *)

(** A listing with all five sub-elements. *)
Definition civic : Dom.tag :=
  Dom.Tag "div" ["vehicle-listing"] ∅ [
    Dom.Tag "h2" ["vehicle-title"] ∅ [Dom.NavigableString "  2020 Civic "];
    Dom.Tag "span" ["price"] ∅ [Dom.NavigableString "$18,000"];
    Dom.Tag "span" ["mileage"] ∅ [Dom.NavigableString "30,000 mi"];
    Dom.Tag "a" ["vehicle-link"] {[ "href" := "/v/1" ]} [];
    Dom.Tag "img" ["vehicle-image"] {[ "src" := "/i/1.jpg" ]} []
  ].

(** The same without a price. *)
Definition civic_unpriced : Dom.tag :=
  Dom.Tag "div" ["vehicle-listing"] ∅ [
    Dom.Tag "h2" ["vehicle-title"] ∅ [Dom.NavigableString "  2020 Civic "];
    Dom.Tag "span" ["mileage"] ∅ [Dom.NavigableString "30,000 mi"];
    Dom.Tag "a" ["vehicle-link"] {[ "href" := "/v/1" ]} [];
    Dom.Tag "img" ["vehicle-image"] {[ "src" := "/i/1.jpg" ]} []
  ].

(** A listing whose link [urljoin] rejects: the bracket of the host is
    never closed. *)
Definition bad_host : Dom.tag :=
  Dom.Tag "div" ["vehicle-listing"] ∅ [
    Dom.Tag "h2" ["vehicle-title"] ∅ [Dom.NavigableString "2019 Accord"];
    Dom.Tag "a" ["vehicle-link"] {[ "href" := "https://[dealer/v/2" ]} []
  ].

(** A listing with nothing in it, and an anchor without [href]. *)
Definition bare : Dom.tag := Dom.Tag "div" ["vehicle-listing"] ∅ [].

Definition unlinked : Dom.tag :=
  Dom.Tag "div" ["vehicle-listing"] ∅ [
    Dom.Tag "a" ["vehicle-link"] ∅ [Dom.NavigableString "details"];
    Dom.Tag "img" ["vehicle-image"] {[ "alt" := "photo" ]} []
  ].

Definition showroom : Dom.tag :=
  Dom.Tag "[document]" [] ∅ [
    Dom.Tag "html" [] ∅ [
      Dom.Tag "body" [] ∅ [civic; civic_unpriced; bad_host; bare]
    ]
  ].

Definition showroom_html : string := "<html><body>the showroom</body></html>".

(** A tree builder that knows the showroom page; any other body is an
    empty document to it. *)
Definition showroom_parser (body : string) : Dom.tag :=
  if bool_decide (body = showroom_html) then showroom
  else Dom.Tag "[document]" [] ∅ [].

Definition showroom_bs4 : Bs4 Dom.tag := Dom.tag_bs4 showroom_parser.

(** A listing that is only a link. *)
Definition anchored (href : string) : Dom.tag :=
  Dom.Tag "div" ["vehicle-listing"] ∅ [
    Dom.Tag "a" ["vehicle-link"] {[ "href" := href ]} []
  ].

(** A world whose random samples differ: zero first, then three
    quarters. *)
Definition drifting : world :=
  World SCRAPER_CONFIG
    (fun _ _ => Return (mkResponse 200 showroom_html))
    (fun _ => firefox_on_linux)
    (fun k => if (k =? 0)%nat then 0 else 3 # 4)%Q.

(** A process that imports the module, then constructs a scraper and
    fetches with it, twice over; the sleeps of the two fetches. *)
Definition two_scrapers (w : world) : M (list Q * list Q) :=
  g <- import_scrapers w ;;
  first <- __init__ w g ;;
  before_first <- snapshot ;;
  get_with_retry w g first (BASE_URL g) ;;
  after_first <- snapshot ;;
  second <- __init__ w g ;;
  get_with_retry w g second (BASE_URL g) ;;
  after_second <- snapshot ;;
  ret (sleep_calls (emitted before_first after_first),
       sleep_calls (emitted after_first after_second)).

(** ** app.py *)

(** What [jsonify] is given and what it writes: JSON values.  The members
    of an object are listed in the order of the dictionary display; their
    order carries no meaning. *)
#[warnings="-register-all"]
Inductive json :=
  | JNull
  | JString (s : string)
  | JNumber (n : Z)
  | JArray (items : list json)
  | JObject (members : list (string * json)).

Definition json_of_field (field : option string) : json :=
  match field with
  | Some s => JString s
  | None => JNull
  end.

(** The dictionary [scrape_vehicle_listings] builds for a listing. *)
Definition json_of_vehicle (v : vehicle) : json :=
  JObject [("title", json_of_field (title v));
           ("price", json_of_field (price v));
           ("mileage", json_of_field (mileage v));
           ("link", json_of_field (link v));
           ("image", json_of_field (image v))].

Definition success_envelope (results : list vehicle) : json :=
  JObject [("status", JString "success");
           ("count", JNumber (Z.of_nat (length results)));
           ("data", JArray (json_of_vehicle <$> results))].

Definition error_envelope (e : exn) : json :=
  JObject [("status", JString "error");
           ("message", JString (exn_str e))].

Section App.

Context {node : Type} {bs4 : Bs4 node} {urllib : Urllib}.

(** The view of [/scrape]: the body and the status code of the answer. *)
Definition scrape_vehicles (w : world) (g : globals) : M (json * Z) :=
  try_except
    (scraper <- __init__ w g ;;
     results <- scrape_vehicle_listings w g scraper ;;
     ret (success_envelope results, 200))
    (except_Exception (fun e =>
       logging_error ("API error: " +:+ exn_str e) ;;
       ret (error_envelope e, 500))).

End App.

(** ** More observations *)

(** The seconds a trace spends asleep. *)
Definition total_sleep (tr : list event) : Q :=
  foldr Qplus 0%Q (sleep_calls tr).

(** What [str(e)] is for the exception an attempt ended with. *)
Definition error_text (o : result Response) : string :=
  match o with
  | Raise e => exn_str e
  | Return _ => EmptyString
  end.

(** Whether a call ended by giving up: it raised a request error. *)
Definition gave_up {A} (r : result A) : bool :=
  match r with
  | Raise e => is_RequestException e
  | Return _ => false
  end.

(** A string of whitespace only (the empty one included). *)
Definition blank (s : string) : bool := Str.string_forall Dom.isspace s.

(** ** More worlds *)

(** The transport fails with something that is no request error. *)
Definition crashing : world :=
  World SCRAPER_CONFIG
    (fun _ _ => Raise (Exn RuntimeError "can't start new thread"))
    (fun _ => firefox_on_linux)
    (fun _ => 1 # 2)%Q.

(** Every request is answered 304 without a body. *)
Definition unmodified : world :=
  World SCRAPER_CONFIG
    (fun _ _ => Return (mkResponse 304 EmptyString))
    (fun _ => firefox_on_linux)
    (fun _ => 1 # 2)%Q.

(** The module with the retries set to none. *)
Definition without_retries : globals :=
  Globals "https://novaautoland.com" 3 0 10.

(** A listing whose sub-elements are there but empty. *)
Definition hollow : Dom.tag :=
  Dom.Tag "div" ["vehicle-listing"] ∅ [
    Dom.Tag "span" ["price"] ∅ [Dom.NavigableString "   "];
    Dom.Tag "a" ["vehicle-link"] {[ "href" := EmptyString ]} [];
    Dom.Tag "img" ["vehicle-image"] {[ "src" := EmptyString ]} []
  ].

(** The warning of attempt [i]. *)
Definition warning_of (w : world) (g : globals) (self : NovaAutoScraper)
    (url : string) (s : state) (i : nat) : level * string :=
  (WARNING, "Attempt " +:+ pretty (Z.of_nat i + 1) +:+ " failed: "
            +:+ error_text (nth_outcome w g self url s i)).

(** * Proofs *)

(** ** The trace *)

Lemma emitted_app s s' l : trace s' = trace s ++ l -> emitted s s' = l.
Proof. unfold emitted. intros ->. apply drop_app_length. Qed.

(** ** One attempt *)

Lemma attempt_body_run w g self url s :
  attempt_body w g self url s =
  (checked (network w (gets s)
              (Request url (TIMEOUT g)
                 (dict_update (session_headers self)
                    {[ "User-Agent" := fake_useragent w (uas s) ]}))),
   State (S (gets s)) (S (uas s)) (draws s)
     (trace s ++ [Sleep (REQUEST_DELAY g);
                  Get (Request url (TIMEOUT g)
                         (dict_update (session_headers self)
                            {[ "User-Agent" := fake_useragent w (uas s) ]}))])).
Proof.
  unfold attempt_body, bind, time_sleep, emit, ua_random, session_get,
    raise_for_status, checked; simpl.
  rewrite <- app_assoc; simpl.
  destruct (network w (gets s) _) as [r | e]; [| reflexivity].
  destruct ((400 <=? status_code r) && (status_code r <? 600)); reflexivity.
Qed.

Lemma get_with_retry_loop_cons w g self url attempt rest s :
  get_with_retry_loop w g self url (attempt :: rest) s =
  match attempt_body w g self url s with
  | (Return response, s1) => (Return (Some response), s1)
  | (Raise e, s1) =>
      if is_RequestException e
      then
        let warn := Log WARNING ("Attempt " +:+ pretty (attempt + 1)
                                 +:+ " failed: " +:+ exn_str e) in
        if attempt =? MAX_RETRIES g - 1
        then (Raise e,
              add_events s1 [warn; Log ERROR ("Max retries reached for " +:+ url)])
        else get_with_retry_loop w g self url rest
               (add_events s1 [warn; Sleep (inject_Z (2 ^ attempt))])
      else (Raise e, s1)
  end.
Proof.
  cbn [get_with_retry_loop].
  unfold bind at 1. unfold try_except.
  unfold bind at 1.
  destruct (attempt_body w g self url s) as [[response | e] s1]; [reflexivity |].
  unfold except_RequestException.
  destruct (is_RequestException e); [| reflexivity].
  unfold attempt_handler, bind, logging_warning, logging_error, time_sleep,
    emit, raise, ret, add_events; simpl.
  destruct (attempt =? MAX_RETRIES g - 1); simpl;
    rewrite <- app_assoc; reflexivity.
Qed.

Lemma get_with_retry_loop_run w g self url s0 (m : nat) :
  forall (k : nat) (s : state),
    gets s = (gets s0 + k)%nat ->
    uas s = (uas s0 + k)%nat ->
    m = O \/ Z.of_nat (k + m) = MAX_RETRIES g ->
    loop_spec w g self url s0 k m s
      (get_with_retry_loop w g self url (seqZ (Z.of_nat k) (Z.of_nat m)) s).
Proof.
  induction m as [| m IH]; intros k s Hg Hu Hmax.
  - exists O. simpl. rewrite app_nil_r, !Nat.add_0_r.
    repeat split; try lia.
  - destruct Hmax as [| Hmax]; [discriminate |].
    rewrite seqZ_cons by lia.
    replace (Z.pred (Z.of_nat (S m))) with (Z.of_nat m) by lia.
    replace (Z.succ (Z.of_nat k)) with (Z.of_nat (S k)) by lia.
    rewrite get_with_retry_loop_cons, attempt_body_run.
    rewrite Hg, Hu.
    change (checked (network w (gets s0 + k)%nat _))
      with (nth_outcome w g self url s0 k).
    change (Request url (TIMEOUT g) _) with (nth_request w g self url s0 k).
    destruct (nth_outcome w g self url s0 k) as [response | e] eqn:Ho.
    + exists 1%nat. cbn [fst snd gets uas draws trace flat_map seq].
      rewrite Nat.add_0_r, Ho, app_nil_r.
      unfold attempt_events. rewrite Ho. cbn [aftermath].
      repeat split; try lia.
    + destruct (is_RequestException e) eqn:He.
      * destruct (Z.of_nat k =? MAX_RETRIES g - 1) eqn:Hlast.
        -- apply Z.eqb_eq in Hlast. assert (m = O) by lia. subst m.
           exists 1%nat. cbn [fst snd gets uas draws trace flat_map seq add_events].
           rewrite Nat.add_0_r, Ho, app_nil_r, <- app_assoc.
           unfold attempt_events. rewrite Ho. cbn [aftermath].
           rewrite He. rewrite (proj2 (Z.eqb_eq _ _) Hlast).
           repeat split; try lia.
        -- apply Z.eqb_neq in Hlast.
           cbv zeta. set (s1 := add_events _ _).
           destruct (IH (S k) s1) as (a & Ha & Hg' & Hu' & Hd' & Ht' & Hf' & Hr').
           { subst s1; simpl; lia. }
           { subst s1; simpl; lia. }
           { right. lia. }
           exists (S a).
           rewrite Hg', Hu', Hd', Ht'. subst s1.
           cbn [fst snd gets uas draws trace flat_map seq add_events].
           rewrite <- !app_assoc.
           unfold attempt_events at 2. rewrite Ho. cbn [aftermath].
           rewrite He. rewrite (proj2 (Z.eqb_neq _ _) Hlast).
           refine (conj _ (conj _ (conj _ (conj _ (conj _ (conj _ _))))));
             try lia; try reflexivity.
           ++ intros i Hki Hia. split; [| lia].
              destruct (decide (i = k)) as [-> | Hne].
              ** rewrite Ho. exact He.
              ** apply Hf'; lia.
           ++ destruct a as [| a'].
              ** exfalso. destruct Hr' as [Hm _]. lia.
              ** replace (k + S a')%nat with (S k + a')%nat by lia.
                 destruct (nth_outcome w g self url s0 (S k + a')) as [r' | e'].
                 --- exact Hr'.
                 --- destruct Hr' as [Hr' Hlim]. split; [exact Hr' |].
                     intros He'. rewrite (Hlim He'). reflexivity.
      * exists 1%nat. cbn [fst snd gets uas draws trace flat_map seq].
        rewrite Nat.add_0_r, Ho, app_nil_r.
        unfold attempt_events. rewrite Ho. cbn [aftermath]. rewrite He.
        repeat split; try lia; try discriminate.
Qed.

Lemma range_seqZ (n : Z) : range n = seqZ (Z.of_nat 0) (Z.of_nat (Z.to_nat n)).
Proof.
  unfold range. destruct (Z.le_gt_cases 0 n) as [Hn | Hn].
  - rewrite Z2Nat.id by exact Hn. reflexivity.
  - rewrite (seqZ_nil 0 n) by lia.
    replace (Z.to_nat n) with O by lia. reflexivity.
Qed.

(** The whole call, in terms of its attempts. *)
Lemma get_with_retry_run w g self url s :
  loop_spec w g self url s 0 (Z.to_nat (MAX_RETRIES g)) s
    (get_with_retry w g self url s).
Proof.
  unfold get_with_retry. rewrite range_seqZ.
  apply get_with_retry_loop_run; [lia | lia |].
  destruct (Z.le_gt_cases (MAX_RETRIES g) 0) as [Hn | Hn]; [left | right]; lia.
Qed.

Lemma get_calls_app l1 l2 : get_calls (l1 ++ l2) = get_calls l1 ++ get_calls l2.
Proof. apply omap_app. Qed.

Lemma get_calls_aftermath g url i o : get_calls (aftermath g url i o) = [].
Proof.
  destruct o as [r | e]; [reflexivity |]. cbn [aftermath].
  destruct (is_RequestException e); [| reflexivity].
  destruct (Z.of_nat i =? MAX_RETRIES g - 1); reflexivity.
Qed.

Lemma get_calls_attempts w g self url s (l : list nat) :
  get_calls (flat_map (attempt_events w g self url s) l)
  = nth_request w g self url s <$> l.
Proof.
  induction l as [| i l IH]; [reflexivity |].
  cbn [flat_map]. rewrite get_calls_app, IH. unfold attempt_events.
  change (get_calls (Sleep ?d :: Get ?r :: ?c)) with (r :: get_calls c).
  rewrite get_calls_aftermath. reflexivity.
Qed.

(** The same, with the number of attempts read off the trace. *)
Lemma get_with_retry_facts w g self url s :
  let run := get_with_retry w g self url s in
  let a := attempts_made s run.2 in
  let n := Z.to_nat (MAX_RETRIES g) in
  (a <= n)%nat /\
  uas run.2 = (uas s + a)%nat /\
  draws run.2 = draws s /\
  emitted s run.2 = flat_map (attempt_events w g self url s) (seq 0 a) /\
  (forall i : nat, (S i < a)%nat ->
     request_failure (nth_outcome w g self url s i) = true /\
     Z.of_nat i <> MAX_RETRIES g - 1) /\
  match a with
  | O => n = O /\ run.1 = Return None
  | S a' =>
      match nth_outcome w g self url s a' with
      | Return response => run.1 = Return (Some response)
      | Raise e => run.1 = Raise e /\ (is_RequestException e = true -> a = n)
      end
  end.
Proof.
  intros run a n.
  destruct (get_with_retry_run w g self url s)
    as (a0 & Ha & Hg & Hu & Hd & Ht & Hf & Hr).
  fold run in Hg, Hu, Hd, Ht, Hr. fold n in Ha, Hr.
  assert (a = a0) as ->.
  { subst a. unfold attempts_made.
    rewrite (emitted_app _ _ _ Ht), get_calls_attempts.
    rewrite length_fmap, length_seq. reflexivity. }
  repeat split; try assumption.
  - apply emitted_app, Ht.
  - apply Hf; lia.
  - apply Hf; lia.
Qed.

(** ** C1 *)

(** C1. A call of [get_with_retry] with [MAX_RETRIES = N] sends at most [N]
    requests.  If every one of the [N] attempts fails with a request error,
    exactly [N] requests are sent and the error of the last attempt is the
    one raised to the caller.  If attempts [0 .. k-1] fail and attempt [k]
    (with [k < N]) succeeds, its response is returned and exactly [k + 1]
    requests were sent. *)
Theorem get_with_retry_bounded_attempts w g self url s :
  let run := get_with_retry w g self url s in
  let n := Z.to_nat (MAX_RETRIES g) in
  let outcome := nth_outcome w g self url s in
  (attempts_made s run.2 <= n)%nat /\
  ((0 < n)%nat ->
   (forall i : nat, (i < n)%nat -> request_failure (outcome i) = true) ->
   attempts_made s run.2 = n /\
   exists e, outcome (n - 1)%nat = Raise e /\ run.1 = Raise e) /\
  (forall (k : nat) (response : Response),
     (k < n)%nat ->
     (forall i : nat, (i < k)%nat -> request_failure (outcome i) = true) ->
     outcome k = Return response ->
     run.1 = Return (Some response) /\ attempts_made s run.2 = S k).
Proof.
  intros run n outcome.
  destruct (get_with_retry_facts w g self url s)
    as (Ha & _ & _ & _ & Hf & Hr).
  fold run n in Ha, Hf, Hr |- *. fold outcome in Hf, Hr.
  split; [exact Ha |]. split.
  - intros Hn Hall.
    destruct (attempts_made s run.2) as [| a'] eqn:Ea.
    + destruct Hr as [Hz _]. lia.
    + specialize (Hall a' ltac:(lia)).
      destruct (outcome a') as [response | e] eqn:Ho; [discriminate |].
      destruct Hr as [Hr Hlim]. specialize (Hlim Hall).
      split; [exact Hlim |].
      exists e. replace (n - 1)%nat with a' by lia. split; [exact Ho | exact Hr].
  - intros k response Hk Hbefore Ho.
    destruct (attempts_made s run.2) as [| a'] eqn:Ea.
    + destruct Hr as [Hz _]. lia.
    + assert (a' = k) as ->.
      { destruct (Nat.lt_trichotomy a' k) as [Hlt | [Heq | Hgt]]; [| exact Heq |].
        - specialize (Hbefore a' Hlt).
          destruct (outcome a') as [r' | e'] eqn:Ho'; [discriminate |].
          destruct Hr as [_ Hlim]. specialize (Hlim Hbefore). lia.
        - destruct (Hf k ltac:(lia)) as [Hfail _].
          rewrite Ho in Hfail. discriminate. }
      rewrite Ho in Hr. split; [exact Hr | reflexivity].
Qed.

(** With nothing to attempt, the loop body never runs and the call
    returns [None]. *)
Lemma get_with_retry_without_attempts w g self url s :
  MAX_RETRIES g <= 0 -> get_with_retry w g self url s = (Return None, s).
Proof.
  intros Hn. unfold get_with_retry, range. rewrite seqZ_nil by exact Hn.
  reflexivity.
Qed.

(** ** C2 *)

Lemma io_calls_app l1 l2 : io_calls (l1 ++ l2) = io_calls l1 ++ io_calls l2.
Proof. apply List.filter_app. Qed.

Lemma io_calls_flat_map {A} (f g : A -> list event) (l : list A) :
  (forall x, x ∈ l -> io_calls (f x) = g x) ->
  io_calls (flat_map f l) = flat_map g l.
Proof.
  induction l as [| x l IH]; intros Hfg; [reflexivity |].
  cbn [flat_map]. rewrite io_calls_app, Hfg by left.
  rewrite IH; [reflexivity |]. intros y Hy. apply Hfg. right. exact Hy.
Qed.

Lemma io_calls_get_with_retry w g self url s :
  let run := get_with_retry w g self url s in
  let a := attempts_made s run.2 in
  io_calls (emitted s run.2) = flat_map (schedule w g self url s a) (seq 0 a).
Proof.
  intros run a.
  destruct (get_with_retry_facts w g self url s)
    as (Ha & _ & _ & Ht & Hf & Hr).
  fold run a in Ha, Ht, Hf, Hr. rewrite Ht.
  apply io_calls_flat_map. intros i Hi.
  apply elem_of_seq in Hi. unfold attempt_events, schedule.
  change (io_calls (Sleep ?d :: Get ?r :: ?c)) with (Sleep d :: Get r :: io_calls c).
  f_equal. f_equal.
  destruct (Nat.ltb_spec (S i) a) as [Hlt | Hge].
  - destruct (Hf i Hlt) as [Hfail Hnonfinal].
    destruct (nth_outcome w g self url s i) as [r | e]; [discriminate |].
    cbn [request_failure] in Hfail. cbn [aftermath]. rewrite Hfail.
    rewrite (proj2 (Z.eqb_neq _ _) Hnonfinal). reflexivity.
  - destruct a as [| a']; [lia |]. assert (i = a') as -> by lia.
    destruct (nth_outcome w g self url s a') as [r | e]; [reflexivity |].
    cbn [aftermath]. destruct (is_RequestException e); [| reflexivity].
    destruct Hr as [_ Hlim]. specialize (Hlim eq_refl).
    assert (Z.of_nat a' = MAX_RETRIES g - 1) as Hfinal by lia.
    rewrite (proj2 (Z.eqb_eq _ _) Hfinal). reflexivity.
Qed.

(** C2. Among the attempts a call makes, attempt [i] (counted from 0) is
    followed by another attempt exactly when it failed with a request error
    and was not the final one ([i + 1 < MAX_RETRIES]).  The sleeps and
    requests of the call are then, in order: for each attempt the request
    delay and the request, and after each failed non-final attempt [i] a
    sleep of exactly [2 ^ i] seconds; nothing is slept after the last
    attempt made, in particular not after the final one. *)
Theorem backoff_is_exponential w g self url s :
  let run := get_with_retry w g self url s in
  let a := attempts_made s run.2 in
  let n := Z.to_nat (MAX_RETRIES g) in
  (forall i : nat, (i < a)%nat ->
     (request_failure (nth_outcome w g self url s i) = true /\ (S i < n)%nat
      <-> (S i < a)%nat)) /\
  io_calls (emitted s run.2) =
    flat_map (fun i : nat =>
                Sleep (REQUEST_DELAY g) :: Get (nth_request w g self url s i)
                :: (if (S i <? a)%nat
                    then [Sleep (inject_Z (2 ^ Z.of_nat i))]
                    else []))
             (seq 0 a).
Proof.
  intros run a n. split; [| apply io_calls_get_with_retry].
  destruct (get_with_retry_facts w g self url s)
    as (Ha & _ & _ & _ & Hf & Hr).
  fold run a n in Ha, Hf, Hr.
  intros i Hi. split.
  - intros [Hfail Hnonfinal].
    destruct (decide (S i < a)%nat) as [Hlt | Hge]; [exact Hlt | exfalso].
    destruct a as [| a']; [lia |]. assert (i = a') as -> by lia.
    destruct (nth_outcome w g self url s a') as [r | e]; [discriminate |].
    destruct Hr as [_ Hlim]. specialize (Hlim Hfail). lia.
  - intros Hlt. split; [apply Hf; exact Hlt | lia].
Qed.

Lemma get_with_retry_bounded_attempts_witness :
  (attempts_made initial
     (get_with_retry unreachable module_globals plain_scraper
        "https://novaautoland.com" initial).2 = 3%nat /\
   (get_with_retry unreachable module_globals plain_scraper
      "https://novaautoland.com" initial).1
   = Raise (Exn ConnectionError "Connection refused")) /\
  ((get_with_retry (recovering 2 "<html></html>") module_globals plain_scraper
      "https://novaautoland.com" initial).1
   = Return (Some (mkResponse 200 "<html></html>")) /\
   attempts_made initial
     (get_with_retry (recovering 2 "<html></html>") module_globals plain_scraper
        "https://novaautoland.com" initial).2 = 3%nat).
Proof.
  split.
  - destruct (get_with_retry_bounded_attempts unreachable module_globals
                plain_scraper "https://novaautoland.com" initial)
      as (_ & Hfail & _).
    destruct Hfail as (Hn & e & He & Hr).
    + simpl. lia.
    + intros i Hi. reflexivity.
    + split; [exact Hn |]. rewrite Hr. f_equal.
      vm_compute in He. injection He as <-. reflexivity.
  - destruct (get_with_retry_bounded_attempts (recovering 2 "<html></html>")
                module_globals plain_scraper "https://novaautoland.com" initial)
      as (_ & _ & Hok).
    apply (Hok 2%nat (mkResponse 200 "<html></html>")).
    + simpl. lia.
    + intros i Hi. destruct i as [| [| i]]; [reflexivity | reflexivity | lia].
    + reflexivity.
Defined.

(** ** C7 *)

(** C7, as stated, fails.  In a world where the generator of
    [fake_useragent] yields a Firefox string, the one request of a fresh
    process goes out with a timeout of 10, not the 15 of [SCRAPER_CONFIG],
    and with a user agent that is none of the strings of its pool. *)
Lemma requests_not_sent_as_configured :
  let cfg := config_py (serving "<html></html>") in
  let requests :=
    get_calls (trace (fetch_base_url (serving "<html></html>") initial).2) in
  cfg = SCRAPER_CONFIG /\
  exists r, requests = [r] /\
    req_timeout r = 10 /\ timeout cfg = 15 /\
    req_headers r !! "User-Agent" = Some firefox_on_linux /\
    (firefox_on_linux ∉ user_agents cfg) /\
    ~ Forall (sent_as_configured cfg) requests.
Proof.
  intros cfg requests. split; [reflexivity |].
  assert (firefox_on_linux ∉ user_agents cfg) as Hpool.
  { intros Hin. apply list_elem_of_In in Hin. simpl in Hin.
    destruct Hin as [Heq | [Heq | []]]; discriminate Heq. }
  eexists. split; [reflexivity |].
  repeat split; try reflexivity; try exact Hpool.
  intros Hall. apply Forall_cons in Hall as [[Htimeout _] _].
  discriminate Htimeout.
Qed.

Lemma nth_request_user_agent w g self url s i :
  req_headers (nth_request w g self url s i) !! "User-Agent"
  = Some (fake_useragent w (uas s + i)).
Proof.
  unfold nth_request, dict_update. cbn [req_headers].
  apply lookup_union_Some_l, lookup_singleton_eq.
Qed.

(** C7, amended.  The requests of a call are, in order, one per attempt:
    each to the URL asked for, each with the timeout held in the module's
    [TIMEOUT] (which the module body sets to 10), and the one of attempt [i]
    with the [i]-th next string of the [fake_useragent] generator as its
    User-Agent header, so that every attempt consumes a draw of its own.
    Nothing of [SCRAPER_CONFIG] enters. *)
Theorem requests_use_module_timeout_and_fresh_user_agent w g self url s :
  let run := get_with_retry w g self url s in
  let a := attempts_made s run.2 in
  get_calls (emitted s run.2) = nth_request w g self url s <$> seq 0 a /\
  uas run.2 = (uas s + a)%nat /\
  (forall i : nat,
     req_url (nth_request w g self url s i) = url /\
     req_timeout (nth_request w g self url s i) = TIMEOUT g /\
     req_headers (nth_request w g self url s i) !! "User-Agent"
     = Some (fake_useragent w (uas s + i))) /\
  (forall s0 : state,
     TIMEOUT <$> returned (import_scrapers w s0).1 = Some 10).
Proof.
  intros run a.
  destruct (get_with_retry_facts w g self url s)
    as (_ & Hu & _ & Ht & _ & _).
  fold run a in Hu, Ht.
  split; [rewrite Ht; apply get_calls_attempts |].
  split; [exact Hu |]. split; [| reflexivity].
  intros i. split; [reflexivity |]. split; [reflexivity |].
  apply nth_request_user_agent.
Qed.

(** ** C8 *)

Lemma aftermath_no_get g url i o pre r post :
  aftermath g url i o <> pre ++ Get r :: post.
Proof.
  destruct o as [resp | e]; cbn [aftermath].
  - destruct pre; discriminate.
  - destruct (is_RequestException e); [| destruct pre; discriminate].
    destruct (Z.of_nat i =? MAX_RETRIES g - 1);
      destruct pre as [| ? [| ? [| ? ?]]]; discriminate.
Qed.

(** In the events of any attempts, a request comes right after a sleep of
    the request delay. *)
Lemma attempts_delay_before_get w g self url s (l : list nat) pre r post :
  flat_map (attempt_events w g self url s) l = pre ++ Get r :: post ->
  exists pre', pre = pre' ++ [Sleep (REQUEST_DELAY g)].
Proof.
  revert pre. induction l as [| i l IH]; intros pre Heq.
  - destruct pre; discriminate.
  - cbn [flat_map] in Heq. unfold attempt_events at 1 in Heq.
    destruct pre as [| e1 pre]; [discriminate |].
    injection Heq as <- Heq.
    destruct pre as [| e2 pre].
    + exists []. reflexivity.
    + injection Heq as <- Heq.
      apply app_eq_app in Heq as (k & [(Haft & Hrest) | (Hpre & Hrest)]).
      * destruct k as [| e3 k].
        -- symmetry in Hrest. destruct (IH [] Hrest) as (pre' & Hpre').
           destruct pre'; discriminate.
        -- exfalso. injection Hrest as <- Hrest.
           apply (aftermath_no_get g url i (nth_outcome w g self url s i)
                    pre r k).
           exact Haft.
      * destruct (IH k Hrest) as (pre' & Hpre').
        exists (Sleep (REQUEST_DELAY g) :: Get (nth_request w g self url s i)
                :: aftermath g url i (nth_outcome w g self url s i) ++ pre').
        rewrite Hpre, Hpre'. cbn [app]. rewrite <- app_assoc. reflexivity.
Qed.

(** C8, amended.  The request delay is one value, drawn when the module
    body runs:
    [1 + (5 - 1) * u] for the next sample [u] of [random.random()], hence
    between 1 and 5 for a sample of the unit interval.  Constructing a
    scraper draws no sample, and no call of [get_with_retry] does, whichever
    scraper, URL and moment: every one of its requests comes right after a
    sleep of that same value. *)
Theorem request_delay_drawn_once w s0 :
  exists (g : globals) (s1 : state),
    import_scrapers w s0 = (Return g, s1) /\
    draws s1 = S (draws s0) /\
    REQUEST_DELAY g = (1 + (5 - 1) * random_random w (draws s0))%Q /\
    ((0 <= random_random w (draws s0) <= 1)%Q ->
     (1 <= REQUEST_DELAY g <= 5)%Q) /\
    (forall s : state, draws (__init__ w g s).2 = draws s) /\
    (forall (self : NovaAutoScraper) (url : string) (s : state),
       let run := get_with_retry w g self url s in
       draws run.2 = draws s /\
       forall (pre post : list event) (r : request),
         emitted s run.2 = pre ++ Get r :: post ->
         exists pre', pre = pre' ++ [Sleep (REQUEST_DELAY g)]).
Proof.
  eexists. eexists. split; [reflexivity |]. cbn [draws REQUEST_DELAY].
  split; [reflexivity |]. split; [reflexivity |]. split; [| split].
  - intros [Hlo Hhi]. change (inject_Z 1) with 1%Q. change (inject_Z 5) with 5%Q.
    split; lra.
  - intros s. reflexivity.
  - intros self url s.
    destruct (get_with_retry_facts w
                (Globals "https://novaautoland.com"
                   (inject_Z 1 + (inject_Z 5 - inject_Z 1)
                                 * random_random w (draws s0))%Q 3 10)
                self url s) as (_ & _ & Hd & Ht & _ & _).
    split; [exact Hd |].
    intros pre post r Heq. rewrite Ht in Heq.
    apply attempts_delay_before_get in Heq. exact Heq.
Qed.

Lemma request_delay_drawn_once_witness :
  exists (g : globals) (s1 : state),
    import_scrapers (serving "<html></html>") initial = (Return g, s1) /\
    (1 <= REQUEST_DELAY g <= 5)%Q.
Proof.
  destruct (request_delay_drawn_once (serving "<html></html>") initial)
    as (g & s1 & Himport & _ & _ & Hrange & _).
  exists g, s1. split; [exact Himport |].
  apply Hrange. simpl. unfold Qle; simpl. lia.
Defined.

(** ** Extraction *)

Lemma stateless_ret {A} (a : A) : stateless (ret a).
Proof. intros s. reflexivity. Qed.

Lemma stateless_raise {A} (e : exn) : stateless (raise (A := A) e).
Proof. intros s. reflexivity. Qed.

Lemma stateless_lift {A} (r : result A) : stateless (lift r).
Proof. intros s. reflexivity. Qed.

Lemma stateless_bind {A B} (m : M A) (f : A -> M B) :
  stateless m -> (forall a, stateless (f a)) -> stateless (bind m f).
Proof.
  intros Hm Hf s. unfold bind. rewrite (Hm s), (Hm initial).
  destruct (m initial).1 as [a | e]; [| reflexivity].
  cbn [fst]. rewrite (Hf a s), (Hf a initial). reflexivity.
Qed.

Section ScrapeProofs.

Context {node : Type} {bs4 : Bs4 node} {urllib : Urllib}.

Lemma stateless_get_text (element : node) selector :
  stateless (_get_text element selector).
Proof.
  apply stateless_bind; [apply stateless_lift |].
  intros [found |]; [| apply stateless_ret].
  apply stateless_bind; [apply stateless_lift |].
  intros text. apply stateless_ret.
Qed.

Lemma stateless_get_link g (element : node) selector :
  stateless (_get_link g element selector).
Proof.
  apply stateless_bind; [apply stateless_lift |].
  intros [found |]; [| apply stateless_ret].
  apply stateless_bind; [apply stateless_lift |].
  intros [|]; [| apply stateless_ret].
  apply stateless_bind; [apply stateless_lift |]. intros href.
  apply stateless_bind; [apply stateless_lift |]. intros url.
  apply stateless_ret.
Qed.

Lemma stateless_get_image (element : node) selector :
  stateless (_get_image element selector).
Proof.
  apply stateless_bind; [apply stateless_lift |].
  intros [found |]; [| apply stateless_ret].
  apply stateless_bind; [apply stateless_lift |].
  intros [|]; [| apply stateless_ret].
  apply stateless_bind; [apply stateless_lift |]. intros src.
  apply stateless_ret.
Qed.

Lemma build_vehicle_run g (listing : node) s :
  build_vehicle g listing s = (extraction g listing, s).
Proof.
  revert s. change (stateless (build_vehicle g listing)).
  unfold build_vehicle.
  apply stateless_bind; [apply stateless_get_text | intros t].
  apply stateless_bind; [apply stateless_get_text | intros p].
  apply stateless_bind; [apply stateless_get_text | intros m].
  apply stateless_bind; [apply stateless_get_link | intros l].
  apply stateless_bind; [apply stateless_get_image | intros i].
  apply stateless_ret.
Qed.

(** The loop over the listings: it cannot raise; it appends the record of
    every listing that did not raise and logs every one that did. *)
Lemma listings_loop_run g (listings : list node) :
  forall (vehicles : list vehicle) (s : state),
    listings_loop g listings vehicles s =
    (Return (vehicles ++ extracted g listings),
     add_events s (skipped g listings)).
Proof.
  induction listings as [| listing rest IH]; intros vehicles s.
  - cbn. unfold ret, add_events. rewrite !app_nil_r. destruct s; reflexivity.
  - cbn [listings_loop]. unfold bind at 1, try_except. unfold bind at 1.
    rewrite build_vehicle_run.
    unfold extracted, skipped. cbn [omap list_omap].
    destruct (extraction g listing) as [v | e].
    + cbn [returned]. unfold ret at 1. rewrite IH.
      rewrite <- app_assoc. reflexivity.
    + cbn [returned except_Exception].
      unfold bind, logging_error, emit, ret at 1. rewrite IH.
      unfold add_events; cbn [gets uas draws trace].
      rewrite <- app_assoc. reflexivity.
Qed.

(** The whole scrape, by cases on the fetch, the parse and the selection. *)
Lemma scrape_vehicle_listings_run w g self s :
  scrape_vehicle_listings w g self s =
  let failed e s1 :=
    (Return [], add_events s1 [Log ERROR ("Scraping failed: " +:+ exn_str e)]) in
  match fetch_step w g self s with
  | (Raise e, s1) => failed e s1
  | (Return None, s1) =>
      failed (Exn AttributeError "'NoneType' object has no attribute 'content'") s1
  | (Return (Some response), s1) =>
      match BeautifulSoup (content response) with
      | Raise e => failed e s1
      | Return soup =>
          match select soup "div.vehicle-listing" with
          | Raise e => failed e s1
          | Return listings =>
              (Return (extracted g listings),
               add_events s1
                 (skipped g listings ++
                  [Log INFO ("Successfully scraped "
                             +:+ pretty (length (extracted g listings))
                             +:+ " vehicles")]))
          end
      end
  end.
Proof.
  unfold scrape_vehicle_listings, try_except.
  unfold bind at 1. unfold logging_info at 1, emit.
  unfold bind at 1. fold (add_events s [Log INFO ("Starting scrape of " +:+ BASE_URL g)]).
  fold (fetch_step w g self s).
  destruct (fetch_step w g self s) as [[[response |] | e] s1]; cbv zeta.
  - unfold bind at 1, response_content, ret at 1.
    unfold bind at 1, lift at 1.
    destruct (BeautifulSoup (content response)) as [soup | e]; [| reflexivity].
    unfold bind at 1, lift at 1.
    destruct (select soup "div.vehicle-listing") as [listings | e]; [| reflexivity].
    unfold bind at 1. rewrite listings_loop_run. cbn [app].
    unfold bind, logging_info, emit, ret, add_events; cbn [gets uas draws trace].
    rewrite <- app_assoc. reflexivity.
  - reflexivity.
  - reflexivity.
Qed.

(** ** C3 *)

(** C3. [scrape_vehicle_listings] returns a list, whatever happens: it
    never raises.  When the fetch raises (its retries are used up, or any
    other error), when there is no response to read, when parsing the body
    raises, or when selecting the listings raises, the result is the empty
    list and the last thing done is to log the failure as an error. *)
Theorem scrape_vehicle_listings_never_raises w g self s :
  let run := scrape_vehicle_listings w g self s in
  let fetch := fetch_step w g self s in
  (exists vehicles, run.1 = Return vehicles) /\
  (forall e, fetch.1 = Raise e -> degraded e fetch.2 run) /\
  (fetch.1 = Return None -> exists e, degraded e fetch.2 run) /\
  (forall response e,
     fetch.1 = Return (Some response) ->
     BeautifulSoup (content response) = Raise e ->
     degraded e fetch.2 run) /\
  (forall response soup e,
     fetch.1 = Return (Some response) ->
     BeautifulSoup (content response) = Return soup ->
     select soup "div.vehicle-listing" = Raise e ->
     degraded e fetch.2 run).
Proof.
  intros run fetch. subst run fetch.
  rewrite scrape_vehicle_listings_run. unfold degraded.
  destruct (fetch_step w g self s) as [[[response |] | e] s1]; cbv zeta;
    cbn [fst snd].
  - split.
    + destruct (BeautifulSoup (content response)) as [soup | e]; [| eauto].
      destruct (select soup "div.vehicle-listing"); eauto.
    + split; [intros e He; discriminate He |].
      split; [intros He; discriminate He |]. split.
      * intros r e [= <-] Hsoup. rewrite Hsoup. split; reflexivity.
      * intros r soup e [= <-] Hsoup Hsel. rewrite Hsoup, Hsel.
        split; reflexivity.
  - split; [eauto |]. split; [intros e He; discriminate He |].
    split; [intros _; eexists; split; reflexivity |]. split.
    + intros r e He. discriminate He.
    + intros r soup e He. discriminate He.
  - split; [eauto |]. split; [intros e' [= <-]; split; reflexivity |].
    split; [intros He; discriminate He |]. split.
    + intros r e' He. discriminate He.
    + intros r soup e' He. discriminate He.
Qed.

(** ** C4 *)

Lemma length_extracted g (listings : list node) :
  length (extracted g listings)
  = length (filter (fun listing => raised (extraction g listing) = false) listings).
Proof.
  unfold extracted. induction listings as [| listing rest IH]; [reflexivity |].
  cbn [omap list_omap]. rewrite filter_cons.
  destruct (extraction g listing) as [v | e]; cbn [returned raised].
  - rewrite decide_True by reflexivity. cbn [length]. rewrite IH. reflexivity.
  - rewrite decide_False by discriminate. exact IH.
Qed.

(** C4. Once the page is fetched and parsed and its listings selected, the
    result is the list of the records of those listings whose extraction
    did not raise: one record each, in the order of the listings, nothing
    merged and nothing reordered; a listing whose extraction raises is left
    out and the loop goes on.  Its length is the number of listings that did
    not raise, and no listing at all gives the empty list. *)
Theorem scraped_records_follow_listings w g self s response soup
    (listings : list node) :
  let run := scrape_vehicle_listings w g self s in
  (fetch_step w g self s).1 = Return (Some response) ->
  BeautifulSoup (content response) = Return soup ->
  select soup "div.vehicle-listing" = Return listings ->
  run.1 = Return (omap (fun listing => returned (extraction g listing)) listings) /\
  (forall vehicles, run.1 = Return vehicles ->
     length vehicles
     = length (filter (fun listing => raised (extraction g listing) = false)
                 listings)) /\
  (listings = [] -> run.1 = Return []).
Proof.
  intros run Hfetch Hsoup Hsel. subst run.
  rewrite scrape_vehicle_listings_run.
  destruct (fetch_step w g self s) as [r s1]. cbn [fst] in Hfetch. subst r.
  rewrite Hsoup, Hsel. cbn [fst].
  split; [reflexivity |]. split.
  - intros vehicles [= <-]. apply length_extracted.
  - intros ->. reflexivity.
Qed.

(** ** The field helpers *)

Lemma _get_text_run (element : node) selector s :
  _get_text element selector s =
  (match select_one element selector with
   | Raise e => Raise e
   | Return None => Return None
   | Return (Some found) => map_result Some (get_text_strip found)
   end, s).
Proof.
  unfold _get_text, bind, lift, ret.
  destruct (select_one element selector) as [[found |] | e]; try reflexivity.
  destruct (get_text_strip found); reflexivity.
Qed.

Lemma _get_link_run g (element : node) selector s :
  _get_link g element selector s =
  (match select_one element selector with
   | Raise e => Raise e
   | Return None => Return None
   | Return (Some found) =>
       match has_attr found "href" with
       | Raise e => Raise e
       | Return false => Return None
       | Return true =>
           match getitem found "href" with
           | Raise e => Raise e
           | Return href => map_result Some (urljoin (BASE_URL g) href)
           end
       end
   end, s).
Proof.
  unfold _get_link, bind, lift, ret.
  destruct (select_one element selector) as [[found |] | e]; try reflexivity.
  destruct (has_attr found "href") as [[|] | e]; try reflexivity.
  destruct (getitem found "href") as [href | e]; try reflexivity.
  destruct (urljoin (BASE_URL g) href); reflexivity.
Qed.

Lemma _get_image_run (element : node) selector s :
  _get_image element selector s =
  (match select_one element selector with
   | Raise e => Raise e
   | Return None => Return None
   | Return (Some found) =>
       match has_attr found "src" with
       | Raise e => Raise e
       | Return false => Return None
       | Return true => map_result Some (getitem found "src")
       end
   end, s).
Proof.
  unfold _get_image, bind, lift, ret.
  destruct (select_one element selector) as [[found |] | e]; try reflexivity.
  destruct (has_attr found "src") as [[|] | e]; try reflexivity.
  destruct (getitem found "src"); reflexivity.
Qed.

(** The record of a listing is made of what the five helpers yield, in the
    order of the dictionary display; the first helper to raise ends it. *)
Lemma extraction_fields g (listing : node) :
  extraction g listing =
  match yield (_get_text listing "h2.vehicle-title") with
  | Raise e => Raise e
  | Return t =>
  match yield (_get_text listing ".price") with
  | Raise e => Raise e
  | Return p =>
  match yield (_get_text listing ".mileage") with
  | Raise e => Raise e
  | Return m =>
  match yield (_get_link g listing "a.vehicle-link") with
  | Raise e => Raise e
  | Return l =>
  match yield (_get_image listing "img.vehicle-image") with
  | Raise e => Raise e
  | Return i => Return (Vehicle t p m l i)
  end end end end end.
Proof.
  unfold extraction, build_vehicle, yield, bind.
  rewrite (stateless_get_text listing "h2.vehicle-title" initial).
  destruct (_get_text listing "h2.vehicle-title" initial).1; [| reflexivity].
  rewrite (stateless_get_text listing ".price" initial).
  destruct (_get_text listing ".price" initial).1; [| reflexivity].
  rewrite (stateless_get_text listing ".mileage" initial).
  destruct (_get_text listing ".mileage" initial).1; [| reflexivity].
  rewrite (stateless_get_link g listing "a.vehicle-link" initial).
  destruct (_get_link g listing "a.vehicle-link" initial).1; [| reflexivity].
  rewrite (stateless_get_image listing "img.vehicle-image" initial).
  destruct (_get_image listing "img.vehicle-image" initial).1; reflexivity.
Qed.

(** ** C6 *)

(** An href with a host of its own is never combined with the base: it is
    returned as it stands, or put together again from its own parts. *)
Lemma urljoin_absolute (base href : string) (b u : Url.parts) :
  Url.nonempty base = true ->
  Url.nonempty href = true ->
  Url.urlparse base EmptyString = Return b ->
  Url.urlparse href (Url.scheme b) = Return u ->
  Url.mem (Url.scheme u) Url.uses_netloc = true ->
  Url.nonempty (Url.netloc u) = true ->
  Url.urljoin base href = Return href \/
  Url.urljoin base href = Return (Url.urlunparse u).
Proof.
  intros Hbase Hhref Hb Hu Hscheme Hnet.
  unfold Url.urljoin. rewrite Hbase, Hhref, Hb, Hu. cbn [negb].
  unfold Url.join_parsed. rewrite Hscheme, Hnet. cbn [andb].
  destruct (negb (bool_decide (Url.scheme u = Url.scheme b))
            || negb (Url.mem (Url.scheme u) Url.uses_relative));
    [left | right]; reflexivity.
Qed.


(** C6, amended.  For a listing whose link sub-element carries an [href],
    [_get_link] yields [urljoin(BASE_URL, href)], and that is the [link] of
    the record the listing gives.  For a listing whose image sub-element
    carries a [src], [_get_image] yields that [src] as it stands, with no
    [urljoin], and that is the [image] of the record.  With [urllib]'s
    algorithm, [/car/42] against [https://example.com] gives
    [https://example.com/car/42]; an absolute href is not moved onto the
    base: it comes back as it stands or put together again from its own
    parts, which leaves it unchanged when it is already written the way
    [urllib] writes a URL. *)
Theorem link_is_resolved_and_image_is_verbatim g (listing : node) :
  (forall (anchor : node) (href : string) (s : state),
     select_one listing "a.vehicle-link" = Return (Some anchor) ->
     has_attr anchor "href" = Return true ->
     getitem anchor "href" = Return href ->
     _get_link g listing "a.vehicle-link" s
     = (map_result Some (urljoin (BASE_URL g) href), s) /\
     forall v, extraction g listing = Return v ->
       exists url, urljoin (BASE_URL g) href = Return url /\ link v = Some url) /\
  (forall (img : node) (src : string) (s : state),
     select_one listing "img.vehicle-image" = Return (Some img) ->
     has_attr img "src" = Return true ->
     getitem img "src" = Return src ->
     _get_image listing "img.vehicle-image" s = (Return (Some src), s) /\
     forall v, extraction g listing = Return v -> image v = Some src) /\
  Url.urljoin "https://example.com" "/car/42"
  = Return "https://example.com/car/42" /\
  Url.urljoin "https://example.com" "https://example.com/car/42"
  = Return "https://example.com/car/42" /\
  Url.urljoin "https://example.com" "https://cdn.dealer.test/photos/42.jpg?size=large#front"
  = Return "https://cdn.dealer.test/photos/42.jpg?size=large#front" /\
  Url.urljoin "https://example.com" "http://dealer.test/v/1"
  = Return "http://dealer.test/v/1" /\
  (forall (base href : string) (b u : Url.parts),
     Url.nonempty base = true ->
     Url.nonempty href = true ->
     Url.urlparse base EmptyString = Return b ->
     Url.urlparse href (Url.scheme b) = Return u ->
     Url.mem (Url.scheme u) Url.uses_netloc = true ->
     Url.nonempty (Url.netloc u) = true ->
     Url.urljoin base href = Return href \/
     Url.urljoin base href = Return (Url.urlunparse u)).
Proof.
  split; [| split; [| repeat split; try (vm_compute; reflexivity);
                      apply urljoin_absolute ]].
  - intros anchor href s Hsel Hhas Hget.
    assert (forall s', _get_link g listing "a.vehicle-link" s'
                       = (map_result Some (urljoin (BASE_URL g) href), s')) as Hrun.
    { intros s'. rewrite _get_link_run, Hsel, Hhas, Hget. reflexivity. }
    split; [apply Hrun |].
    intros v Hv. rewrite extraction_fields in Hv. unfold yield in Hv.
    rewrite (Hrun initial) in Hv. cbn [fst] in Hv.
    destruct (_get_text listing "h2.vehicle-title" initial).1; [| discriminate].
    destruct (_get_text listing ".price" initial).1; [| discriminate].
    destruct (_get_text listing ".mileage" initial).1; [| discriminate].
    destruct (urljoin (BASE_URL g) href) as [url | e]; [| discriminate].
    cbn [map_result] in Hv.
    destruct (_get_image listing "img.vehicle-image" initial).1; [| discriminate].
    injection Hv as <-. exists url. split; reflexivity.
  - intros img src s Hsel Hhas Hget.
    assert (forall s', _get_image listing "img.vehicle-image" s'
                       = (Return (Some src), s')) as Hrun.
    { intros s'. rewrite _get_image_run, Hsel, Hhas, Hget. reflexivity. }
    split; [apply Hrun |].
    intros v Hv. rewrite extraction_fields in Hv. unfold yield in Hv.
    rewrite (Hrun initial) in Hv. cbn [fst] in Hv.
    destruct (_get_text listing "h2.vehicle-title" initial).1; [| discriminate].
    destruct (_get_text listing ".price" initial).1; [| discriminate].
    destruct (_get_text listing ".mileage" initial).1; [| discriminate].
    destruct (_get_link g listing "a.vehicle-link" initial).1; [| discriminate].
    injection Hv as <-. reflexivity.
Qed.

End ScrapeProofs.

(** ** Strings *)

Lemma append_nil_r (s : string) : s +:+ EmptyString = s.
Proof.
  induction s as [| a s IH]; [reflexivity |].
  change (String a (s +:+ EmptyString) = String a s). rewrite IH. reflexivity.
Qed.

Lemma append_assoc (s1 s2 s3 : string) : (s1 +:+ s2) +:+ s3 = s1 +:+ (s2 +:+ s3).
Proof.
  induction s1 as [| a s1 IH]; [reflexivity |].
  change (String a ((s1 +:+ s2) +:+ s3) = String a (s1 +:+ (s2 +:+ s3))).
  rewrite IH. reflexivity.
Qed.

Lemma rev_app_append (s1 s2 : string) :
  String.rev_app s1 s2 = String.rev s1 +:+ s2.
Proof.
  unfold String.rev. revert s2.
  induction s1 as [| a s1 IH]; intros s2; [reflexivity |].
  cbn [String.rev_app]. rewrite (IH (String a s2)), (IH (String a EmptyString)).
  rewrite append_assoc. reflexivity.
Qed.

Lemma rev_cons (a : ascii) (s : string) :
  String.rev (String a s) = String.rev s +:+ String a EmptyString.
Proof. unfold String.rev at 1. cbn [String.rev_app]. apply rev_app_append. Qed.

Lemma rev_append (s1 s2 : string) :
  String.rev (s1 +:+ s2) = String.rev s2 +:+ String.rev s1.
Proof.
  induction s1 as [| a s1 IH].
  - change (String.rev s2 = String.rev s2 +:+ EmptyString).
    rewrite append_nil_r. reflexivity.
  - change (String a s1 +:+ s2) with (String a (s1 +:+ s2)).
    rewrite !rev_cons, IH, append_assoc. reflexivity.
Qed.

Lemma rev_involutive (s : string) : String.rev (String.rev s) = s.
Proof.
  induction s as [| a s IH]; [reflexivity |].
  rewrite rev_cons, rev_append, IH. reflexivity.
Qed.

Lemma rev_nonempty (s : string) : Url.nonempty s = true -> Url.nonempty (String.rev s) = true.
Proof.
  destruct s as [| a s]; [discriminate |]. intros _. rewrite rev_cons.
  destruct (String.rev s); reflexivity.
Qed.

Lemma lstrip_starts_clean p s : starts_clean p (Str.lstrip p s) = true.
Proof.
  induction s as [| a s IH]; [reflexivity |]. cbn [Str.lstrip].
  destruct (p a) eqn:Ha; [exact IH |]. cbn. rewrite Ha. reflexivity.
Qed.

Lemma lstrip_id p s : starts_clean p s = true -> Str.lstrip p s = s.
Proof.
  destruct s as [| a s]; [reflexivity |]. cbn.
  destruct (p a); [discriminate | reflexivity].
Qed.

Lemma lstrip_suffix p s : exists pre, s = pre +:+ Str.lstrip p s.
Proof.
  induction s as [| a s [pre IH]]; [exists EmptyString; reflexivity |].
  cbn [Str.lstrip]. destruct (p a).
  - exists (String a pre).
    change (String a s = String a (pre +:+ Str.lstrip p s)).
    rewrite <- IH. reflexivity.
  - exists EmptyString. reflexivity.
Qed.

Lemma starts_clean_append p s1 s2 :
  Url.nonempty s1 = true -> starts_clean p (s1 +:+ s2) = starts_clean p s1.
Proof. destruct s1; [discriminate | reflexivity]. Qed.

Lemma strip_fixed p s :
  starts_clean p s = true -> starts_clean p (String.rev s) = true ->
  Str.strip p s = s.
Proof.
  intros Hfront Hback. unfold Str.strip.
  rewrite (lstrip_id p s Hfront), (lstrip_id p _ Hback).
  apply rev_involutive.
Qed.

Lemma strip_ends_clean p s :
  starts_clean p (Str.strip p s) = true /\
  starts_clean p (String.rev (Str.strip p s)) = true.
Proof.
  unfold Str.strip. set (t := Str.lstrip p s).
  destruct (lstrip_suffix p (String.rev t)) as [pre Hpre].
  set (u := Str.lstrip p (String.rev t)) in *.
  split.
  - assert (t = String.rev u +:+ String.rev pre) as Ht.
    { rewrite <- rev_append, <- Hpre, rev_involutive. reflexivity. }
    destruct (Url.nonempty (String.rev u)) eqn:Hu.
    + rewrite <- (starts_clean_append p _ (String.rev pre) Hu), <- Ht.
      apply lstrip_starts_clean.
    + destruct (String.rev u); [reflexivity | discriminate].
  - rewrite rev_involutive. apply lstrip_starts_clean.
Qed.

Lemma join_ends_clean p (l : list string) :
  Forall (fun x => Url.nonempty x = true /\ starts_clean p x = true
                   /\ starts_clean p (String.rev x) = true) l ->
  starts_clean p (Str.join EmptyString l) = true /\
  starts_clean p (String.rev (Str.join EmptyString l)) = true /\
  (l <> [] -> Url.nonempty (Str.join EmptyString l) = true).
Proof.
  induction l as [| x l IH]; intros Hall.
  - cbn. repeat split. intros []. reflexivity.
  - apply Forall_cons in Hall as [(Hx & Hfront & Hback) Hall].
    specialize (IH Hall). destruct IH as (IHfront & IHback & IHne).
    destruct l as [| y l].
    + change (Str.join EmptyString [x]) with x.
      split; [exact Hfront |]. split; [exact Hback |]. intros _. exact Hx.
    + change (Str.join EmptyString (x :: y :: l))
        with (x +:+ Str.join EmptyString (y :: l)).
      specialize (IHne ltac:(discriminate)).
      rewrite starts_clean_append by exact Hx.
      rewrite rev_append, starts_clean_append by (apply rev_nonempty, IHne).
      split; [exact Hfront |]. split; [exact IHback |]. intros _.
      destruct x; [discriminate | reflexivity].
Qed.

(** ** bs4 on a document tree *)

Lemma all_strings_strip_clean (t : Dom.tag) :
  Forall (fun x => Url.nonempty x = true
                   /\ starts_clean Dom.isspace x = true
                   /\ starts_clean Dom.isspace (String.rev x) = true)
         (Dom.all_strings_strip t).
Proof.
  apply Forall_forall. intros x Hx. unfold Dom.all_strings_strip in Hx.
  apply list_elem_of_omap in Hx as (d & _ & Hd).
  destruct d as [? ? ? ? | str]; [discriminate |].
  destruct (Url.nonempty (Str.strip Dom.isspace str)) eqn:Hne; [| discriminate].
  injection Hd as <-. split; [exact Hne |]. apply strip_ends_clean.
Qed.

Lemma tag_get_text_strip_trimmed (t : Dom.tag) (x : string) :
  Dom.tag_get_text_strip t = Return x -> trimmed x.
Proof.
  intros [= <-]. unfold trimmed.
  destruct (join_ends_clean Dom.isspace _ (all_strings_strip_clean t))
    as (Hfront & Hback & _).
  apply strip_fixed; assumption.
Qed.

Lemma tag_select_one_total (t : Dom.tag) (selector : string) :
  is_Some (Dom.parse_selector selector) ->
  exists found, Dom.tag_select_one t selector = Return found.
Proof.
  intros [c Hc]. unfold Dom.tag_select_one, Dom.tag_select. rewrite Hc. eauto.
Qed.

(** The selectors of the scraper are all of the kind modelled. *)
Lemma selectors_parse :
  Forall (fun selector => is_Some (Dom.parse_selector selector)) selectors.
Proof. repeat constructor; vm_compute; eauto. Qed.

Section DomProofs.

Context {urllib : Urllib} (html_parser : string -> Dom.tag).

#[local] Hint Extern 0 (Bs4 Dom.tag) =>
  exact (Dom.tag_bs4 html_parser) : typeclass_instances.

Lemma dom_get_text (element : Dom.tag) selector s :
  is_Some (Dom.parse_selector selector) ->
  exists text : option string,
    _get_text element selector s = (Return text, s) /\
    (select_one element selector = Return None -> text = None) /\
    (forall x, text = Some x -> trimmed x).
Proof.
  intros Hsel. rewrite _get_text_run.
  cbn [select_one get_text_strip Dom.tag_bs4].
  destruct (tag_select_one_total element selector Hsel) as [found ->].
  destruct found as [found |].
  - eexists. split; [reflexivity |]. split; [discriminate |].
    intros x [= <-]. apply (tag_get_text_strip_trimmed found). reflexivity.
  - exists None. split; [reflexivity |]. split; [reflexivity | discriminate].
Qed.

Lemma dom_get_image (element : Dom.tag) selector s :
  is_Some (Dom.parse_selector selector) ->
  exists img : option string,
    _get_image element selector s = (Return img, s) /\
    (select_one element selector = Return None -> img = None) /\
    (forall found, select_one element selector = Return (Some found) ->
       has_attr found "src" = Return false -> img = None).
Proof.
  intros Hsel. rewrite _get_image_run.
  cbn [select_one has_attr getitem Dom.tag_bs4].
  destruct (tag_select_one_total element selector Hsel) as [found ->].
  destruct found as [found |].
  - unfold Dom.tag_has_attr, Dom.tag_getitem.
    destruct (Dom.tag_attrs found !! "src") as [src |] eqn:Hsrc.
    + rewrite bool_decide_eq_true_2 by eauto.
      eexists. split; [reflexivity |]. split; [discriminate |].
      intros found' [= <-]. rewrite Hsrc.
      rewrite bool_decide_eq_true_2 by eauto. discriminate.
    + rewrite bool_decide_eq_false_2 by (intros [? ?]; discriminate).
      exists None. repeat split; reflexivity.
  - exists None. repeat split; reflexivity.
Qed.

Lemma dom_get_link g (element : Dom.tag) selector s :
  is_Some (Dom.parse_selector selector) ->
  (select_one element selector = Return None ->
   _get_link g element selector s = (Return None, s)) /\
  (forall found, select_one element selector = Return (Some found) ->
     has_attr found "href" = Return false ->
     _get_link g element selector s = (Return None, s)) /\
  (forall found href, select_one element selector = Return (Some found) ->
     getitem found "href" = Return href ->
     _get_link g element selector s
     = (map_result Some (urljoin (BASE_URL g) href), s)).
Proof.
  intros Hsel. rewrite _get_link_run.
  cbn [select_one has_attr getitem Dom.tag_bs4].
  destruct (tag_select_one_total element selector Hsel) as [found ->].
  split; [intros [= ->]; reflexivity |]. split.
  - intros found' [= ->] ->. reflexivity.
  - intros found' href [= ->] Hhref.
    unfold Dom.tag_has_attr. unfold Dom.tag_getitem in Hhref |- *.
    destruct (Dom.tag_attrs found' !! "href") as [h |]; [| discriminate].
    injection Hhref as ->.
    rewrite bool_decide_eq_true_2 by eauto. reflexivity.
Qed.

(** On a document tree only the link can make the extraction raise. *)
Lemma dom_extraction g (listing : Dom.tag) :
  exists t p m i : option string,
    yield (_get_text listing "h2.vehicle-title") = Return t /\
    yield (_get_text listing ".price") = Return p /\
    yield (_get_text listing ".mileage") = Return m /\
    yield (_get_image listing "img.vehicle-image") = Return i /\
    extraction g listing =
    match yield (_get_link g listing "a.vehicle-link") with
    | Raise e => Raise e
    | Return l => Return (Vehicle t p m l i)
    end.
Proof.
  destruct (dom_get_text listing "h2.vehicle-title" initial) as (t & Ht & _);
    [vm_compute; eauto |].
  destruct (dom_get_text listing ".price" initial) as (p & Hp & _);
    [vm_compute; eauto |].
  destruct (dom_get_text listing ".mileage" initial) as (m & Hm & _);
    [vm_compute; eauto |].
  destruct (dom_get_image listing "img.vehicle-image" initial) as (i & Hi & _);
    [vm_compute; eauto |].
  exists t, p, m, i. rewrite extraction_fields. unfold yield.
  rewrite Ht, Hp, Hm, Hi. cbn [fst].
  repeat split; reflexivity.
Qed.

Lemma dom_link_resolves g (listing : Dom.tag) :
  link_resolves g listing ->
  exists l, yield (_get_link g listing "a.vehicle-link") = Return l.
Proof.
  intros Hres. unfold yield. rewrite _get_link_run. cbn [fst].
  destruct (select_one listing "a.vehicle-link") as [[anchor |] | e] eqn:Hsel;
    [| eauto |].
  - cbn [has_attr getitem Dom.tag_bs4] in *.
    unfold Dom.tag_has_attr, Dom.tag_getitem in *.
    destruct (Dom.tag_attrs anchor !! "href") as [href |] eqn:Hhref.
    + rewrite bool_decide_eq_true_2 by eauto.
      specialize (Hres anchor href Hsel).
      cbn [getitem Dom.tag_bs4] in Hres. unfold Dom.tag_getitem in Hres.
      rewrite Hhref in Hres. specialize (Hres eq_refl).
      destruct (urljoin (BASE_URL g) href); [eauto | discriminate].
    + rewrite bool_decide_eq_false_2 by (intros [? ?]; discriminate). eauto.
  - cbn [select_one Dom.tag_bs4] in Hsel.
    destruct (tag_select_one_total listing "a.vehicle-link") as [found Hfound];
      [vm_compute; eauto |].
    rewrite Hfound in Hsel. discriminate.
Qed.


(** ** C5 *)


(** ** C9 *)

(** C9. On a parsed document, for any node and any selector of the kind the
    scraper uses: [_get_text] and [_get_image] always return; where the
    selector matches nothing all three helpers return [None]; [_get_link]
    returns [None] for an anchor without [href] and [_get_image] for an
    image without [src].  So a listing whose link is missing or has no
    [href] (or is one that [urljoin] accepts) is never skipped, and over
    such listings the loop logs no error and gives one record each. *)
Theorem field_helpers_return_none_when_missing g (element : Dom.tag) s :
  (forall selector : string,
     is_Some (Dom.parse_selector selector) ->
     (exists text, _get_text element selector s = (Return text, s)) /\
     (exists img, _get_image element selector s = (Return img, s)) /\
     (select_one element selector = Return None ->
      _get_text element selector s = (Return None, s) /\
      _get_link g element selector s = (Return None, s) /\
      _get_image element selector s = (Return None, s)) /\
     (forall found, select_one element selector = Return (Some found) ->
        has_attr found "href" = Return false ->
        _get_link g element selector s = (Return None, s)) /\
     (forall found, select_one element selector = Return (Some found) ->
        has_attr found "src" = Return false ->
        _get_image element selector s = (Return None, s))) /\
  ((select_one element "a.vehicle-link" = Return None \/
    exists anchor, select_one element "a.vehicle-link" = Return (Some anchor) /\
                   has_attr anchor "href" = Return false) ->
   link_resolves g element) /\
  (link_resolves g element -> raised (extraction g element) = false) /\
  (forall listings : list Dom.tag,
     Forall (link_resolves g) listings ->
     listings_loop g listings [] s = (Return (extracted g listings), s) /\
     length (extracted g listings) = length listings).
Proof.
  split; [| split; [| split]].
  - intros selector Hsel.
    destruct (dom_get_text element selector s Hsel) as (t & Ht & Htn & _).
    destruct (dom_get_image element selector s Hsel) as (i & Hi & Hin & Hisrc).
    destruct (dom_get_link g element selector s Hsel) as (Hln & Hlhref & _).
    split; [eauto |]. split; [eauto |]. split; [| split].
    + intros Hnone. rewrite Ht, Hi, (Htn Hnone), (Hin Hnone).
      split; [reflexivity |]. split; [apply Hln; exact Hnone | reflexivity].
    + exact Hlhref.
    + intros found Hfound Hsrc. rewrite Hi, (Hisrc found Hfound Hsrc).
      reflexivity.
  - intros [Hnone | (anchor & Hsel & Hhas)] anchor' href Hsel' Hget.
    + rewrite Hnone in Hsel'. discriminate.
    + rewrite Hsel in Hsel'. injection Hsel' as <-.
      cbn [has_attr getitem Dom.tag_bs4] in Hhas, Hget.
      unfold Dom.tag_has_attr in Hhas. unfold Dom.tag_getitem in Hget.
      destruct (Dom.tag_attrs anchor !! "href"); [| discriminate].
      rewrite bool_decide_eq_true_2 in Hhas by eauto. discriminate.
  - intros Hres.
    destruct (dom_extraction g element) as (t & p & m & i & _ & _ & _ & _ & Hv).
    destruct (dom_link_resolves g element Hres) as [l Hl].
    rewrite Hv, Hl. reflexivity.
  - intros listings Hall. rewrite listings_loop_run. cbn [app].
    assert (forall listing, listing ∈ listings ->
              exists v, extraction g listing = Return v) as Hrec.
    { intros listing Hin. rewrite Forall_forall in Hall.
      destruct (dom_extraction g listing) as (t & p & m & i & _ & _ & _ & _ & Hv).
      destruct (dom_link_resolves g listing (Hall listing Hin)) as [l Hl].
      rewrite Hv, Hl. eauto. }
    clear Hall.
    assert (skipped g listings = []
            /\ length (extracted g listings) = length listings) as [Hskip Hlen].
    { unfold skipped, extracted.
      induction listings as [| listing rest IH]; [split; reflexivity |].
      destruct (Hrec listing ltac:(left)) as [v Hv].
      destruct IH as [IHskip IHlen]; [intros x Hx; apply Hrec; right; exact Hx |].
      cbn [omap list_omap]. rewrite Hv. cbn [returned length].
      rewrite IHlen. split; [exact IHskip | reflexivity]. }
    rewrite Hskip. unfold add_events. rewrite app_nil_r.
    destruct s; split; [reflexivity | exact Hlen].
Qed.

End DomProofs.

(** ** C10 *)

Lemma get_with_retry_loop_with_config w c1 c2 g self url attempts :
  forall s,
    get_with_retry_loop (with_config w c1) g self url attempts s
    = get_with_retry_loop (with_config w c2) g self url attempts s.
Proof.
  induction attempts as [| attempt rest IH]; intros s; [reflexivity |].
  rewrite !get_with_retry_loop_cons.
  change (attempt_body (with_config w c1) g self url s)
    with (attempt_body (with_config w c2) g self url s).
  destruct (attempt_body (with_config w c2) g self url s) as [[r | e] s1];
    [reflexivity |].
  destruct (is_RequestException e); [| reflexivity]. cbv zeta.
  destruct (attempt =? MAX_RETRIES g - 1); [reflexivity | apply IH].
Qed.

(** C10. Whatever the [config] module holds, the program behaves the same:
    for any two contents of [SCRAPER_CONFIG] and the same network, generator
    and random samples, importing the module, constructing the scraper,
    [get_with_retry] and [scrape_vehicle_listings] give the same result and
    leave the same state and trace.  The module body sets [BASE_URL],
    [MAX_RETRIES = 3] and [TIMEOUT = 10] by itself. *)
Theorem behaviour_is_independent_of_SCRAPER_CONFIG
    {node : Type} {bs4 : Bs4 node} {urllib : Urllib}
    (w : world) (c1 c2 : scraper_config) :
  (forall s,
     import_scrapers (with_config w c1) s = import_scrapers (with_config w c2) s) /\
  (forall g s,
     __init__ (with_config w c1) g s = __init__ (with_config w c2) g s) /\
  (forall g self url s,
     get_with_retry (with_config w c1) g self url s
     = get_with_retry (with_config w c2) g self url s) /\
  (forall g self s,
     scrape_vehicle_listings (with_config w c1) g self s
     = scrape_vehicle_listings (with_config w c2) g self s) /\
  (forall s, exists delay s',
     import_scrapers (with_config w c1) s
     = (Return (Globals "https://novaautoland.com" delay 3 10), s')).
Proof.
  split; [reflexivity |]. split; [reflexivity |].
  assert (forall g self url s,
            get_with_retry (with_config w c1) g self url s
            = get_with_retry (with_config w c2) g self url s) as Hfetch.
  { intros g self url s. apply get_with_retry_loop_with_config. }
  split; [exact Hfetch |]. split.
  - intros g self s. rewrite !scrape_vehicle_listings_run.
    unfold fetch_step. rewrite Hfetch. reflexivity.
  - intros s. eexists. eexists. reflexivity.
Qed.

(** ** The theorems at work *)

Lemma backoff_is_exponential_witness :
  let run := get_with_retry unreachable module_globals plain_scraper
               "https://novaautoland.com" initial in
  attempts_made initial run.2 = 3%nat /\
  sleep_calls (trace run.2) = [3; 1; 3; 2; 3]%Q /\
  (request_failure
     (nth_outcome unreachable module_globals plain_scraper
        "https://novaautoland.com" initial 1) = true /\ (2 < 3)%nat
   <-> (2 < 3)%nat).
Proof.
  intros run.
  destruct (backoff_is_exponential unreachable module_globals plain_scraper
              "https://novaautoland.com" initial) as [Hnext _].
  assert (attempts_made initial run.2 = 3%nat) as Ha by reflexivity.
  split; [exact Ha |]. split; [reflexivity |].
  fold run in Hnext. rewrite Ha in Hnext.
  apply (Hnext 1%nat). lia.
Defined.

Lemma scrape_vehicle_listings_never_raises_witness :
  let run := scrape_vehicle_listings (bs4 := showroom_bs4) unreachable
               module_globals plain_scraper initial in
  run.1 = Return [] /\
  last (log_records (trace run.2))
  = Some (ERROR, "Scraping failed: Connection refused").
Proof.
  intros run.
  destruct (scrape_vehicle_listings_never_raises (bs4 := showroom_bs4)
              unreachable module_globals plain_scraper initial)
    as (_ & Hfetch & _).
  destruct (Hfetch (Exn ConnectionError "Connection refused")) as [Hr Ht].
  - reflexivity.
  - split; [exact Hr |]. fold run in Ht. rewrite Ht. reflexivity.
Defined.

Lemma scraped_records_follow_listings_witness :
  (scrape_vehicle_listings (bs4 := showroom_bs4) (serving showroom_html)
     module_globals plain_scraper initial).1
  = Return [
      Vehicle (Some "2020 Civic") (Some "$18,000") (Some "30,000 mi")
        (Some "https://novaautoland.com/v/1") (Some "/i/1.jpg");
      Vehicle (Some "2020 Civic") None (Some "30,000 mi")
        (Some "https://novaautoland.com/v/1") (Some "/i/1.jpg");
      Vehicle None None None None None
    ].
Proof.
  destruct (scraped_records_follow_listings (bs4 := showroom_bs4)
              (serving showroom_html) module_globals plain_scraper initial
              (mkResponse 200 showroom_html) showroom
              [civic; civic_unpriced; bad_host; bare]) as (Hrun & _ & _).
  - reflexivity.
  - reflexivity.
  - reflexivity.
  - rewrite Hrun. reflexivity.
Defined.



Lemma link_is_resolved_and_image_is_verbatim_witness :
  _get_link (bs4 := showroom_bs4) module_globals civic "a.vehicle-link" initial
  = (Return (Some "https://novaautoland.com/v/1"), initial) /\
  _get_image (bs4 := showroom_bs4) civic "img.vehicle-image" initial
  = (Return (Some "/i/1.jpg"), initial).
Proof.
  destruct (link_is_resolved_and_image_is_verbatim (bs4 := showroom_bs4)
              module_globals civic) as (Hlink & Himage & _).
  split.
  - destruct (Hlink (Dom.Tag "a" ["vehicle-link"] {[ "href" := "/v/1" ]} [])
                "/v/1" initial) as [Hrun _];
      [reflexivity | reflexivity | reflexivity |].
    rewrite Hrun. reflexivity.
  - destruct (Himage (Dom.Tag "img" ["vehicle-image"] {[ "src" := "/i/1.jpg" ]} [])
                "/i/1.jpg" initial) as [Hrun _];
      [reflexivity | reflexivity | reflexivity |].
    exact Hrun.
Defined.

Lemma field_helpers_return_none_when_missing_witness :
  _get_text (bs4 := showroom_bs4) unlinked ".price" initial
  = (Return None, initial) /\
  _get_link (bs4 := showroom_bs4) module_globals unlinked "a.vehicle-link" initial
  = (Return None, initial) /\
  _get_image (bs4 := showroom_bs4) unlinked "img.vehicle-image" initial
  = (Return None, initial) /\
  raised (extraction (bs4 := showroom_bs4) module_globals unlinked) = false.
Proof.
  destruct (field_helpers_return_none_when_missing showroom_parser
              module_globals unlinked initial)
    as (Hhelpers & Hmissing & Hgiven & _).
  split; [| split; [| split]].
  - destruct (Hhelpers ".price") as (_ & _ & Hnone & _); [vm_compute; eauto |].
    apply Hnone. reflexivity.
  - destruct (Hhelpers "a.vehicle-link") as (_ & _ & _ & Hhref & _);
      [vm_compute; eauto |].
    apply (Hhref (Dom.Tag "a" ["vehicle-link"] ∅ [Dom.NavigableString "details"]));
      reflexivity.
  - destruct (Hhelpers "img.vehicle-image") as (_ & _ & _ & _ & Hsrc);
      [vm_compute; eauto |].
    apply (Hsrc (Dom.Tag "img" ["vehicle-image"] {[ "alt" := "photo" ]} []));
      reflexivity.
  - apply Hgiven, Hmissing. right.
    exists (Dom.Tag "a" ["vehicle-link"] ∅ [Dom.NavigableString "details"]).
    split; reflexivity.
Defined.

(** ** C6 and C8 as stated *)

(** C6, as stated, fails in its last part: an absolute href is not always
    returned unchanged.  [urljoin] puts a same-scheme absolute href
    together again from its parsed parts, so an empty fragment mark is
    dropped and the scheme comes out in lower case, and this is the link of
    the record. *)
Lemma absolute_href_is_rewritten :
  extraction (bs4 := showroom_bs4) module_globals
    (anchored "https://dealer.test/v/1#")
  = Return (Vehicle None None None (Some "https://dealer.test/v/1") None) /\
  Url.urljoin "https://example.com" "https://dealer.test/v/1#"
  = Return "https://dealer.test/v/1" /\
  Url.urljoin "https://example.com" "HTTPS://dealer.test/v/1"
  = Return "https://dealer.test/v/1" /\
  "https://dealer.test/v/1" <> "https://dealer.test/v/1#" /\
  "https://dealer.test/v/1" <> "HTTPS://dealer.test/v/1".
Proof. repeat split; try (vm_compute; reflexivity); discriminate. Qed.

(** C8, as stated, fails on when the value is drawn: not when a scraper is
    constructed.  The module body draws it on import; constructing a first
    and then a second scraper draws nothing, and both sleep the value of the
    import (1 second, from the sample zero), although the next sample
    (three quarters) would have made a delay of 4. *)
Lemma request_delay_not_drawn_at_construction :
  (two_scrapers drifting initial).1 = Return ([1]%Q, [1]%Q) /\
  draws (two_scrapers drifting initial).2 = 1%nat /\
  (forall g s, draws (__init__ drifting g s).2 = draws s) /\
  (1 + (5 - 1) * random_random drifting 1 == 4)%Q.
Proof. repeat split; vm_compute; reflexivity. Qed.

(** * More of the code *)

(** ** get_with_retry: what is logged *)

Lemma log_records_app l1 l2 :
  log_records (l1 ++ l2) = log_records l1 ++ log_records l2.
Proof. apply omap_app. Qed.

Lemma log_records_flat_map {A} (f : A -> list event)
    (g : A -> list (level * string)) (l : list A) :
  (forall x, x ∈ l -> log_records (f x) = g x) ->
  log_records (flat_map f l) = flat_map g l.
Proof.
  induction l as [| x l IH]; intros Hfg; [reflexivity |].
  cbn [flat_map]. rewrite log_records_app, Hfg by left.
  rewrite IH; [reflexivity |]. intros y Hy. apply Hfg. right. exact Hy.
Qed.

Lemma flat_map_singleton {A B} (f : A -> B) (l : list A) :
  flat_map (fun x => [f x]) l = f <$> l.
Proof. induction l as [| x l IH]; [reflexivity |]. cbn. rewrite IH. reflexivity. Qed.

(** The log of the attempts before the last one made: a warning each. *)
Lemma log_records_earlier_attempts w g self url s (a' : nat) :
  (forall i : nat, (i < a')%nat ->
     request_failure (nth_outcome w g self url s i) = true /\
     Z.of_nat i <> MAX_RETRIES g - 1) ->
  log_records (flat_map (attempt_events w g self url s) (seq 0 a'))
  = warning_of w g self url s <$> seq 0 a'.
Proof.
  intros Hf. rewrite <- flat_map_singleton.
  apply log_records_flat_map. intros i Hi. apply elem_of_seq in Hi.
  destruct (Hf i ltac:(lia)) as [Hfail Hnonfinal].
  unfold attempt_events, warning_of.
  destruct (nth_outcome w g self url s i) as [r | e]; [discriminate |].
  cbn [request_failure] in Hfail. cbn [aftermath error_text]. rewrite Hfail.
  rewrite (proj2 (Z.eqb_neq _ _) Hnonfinal). reflexivity.
Qed.

(** The first attempt that does not end in a request error is the last one
    made. *)
Lemma first_settled_attempt w g self url s (k : nat) :
  (k < Z.to_nat (MAX_RETRIES g))%nat ->
  (forall i : nat, (i < k)%nat ->
     request_failure (nth_outcome w g self url s i) = true) ->
  request_failure (nth_outcome w g self url s k) = false ->
  attempts_made s (get_with_retry w g self url s).2 = S k.
Proof.
  intros Hk Hbefore Hsettled.
  destruct (get_with_retry_facts w g self url s) as (Ha & _ & _ & _ & Hf & Hr).
  destruct (attempts_made s (get_with_retry w g self url s).2) as [| a'].
  - destruct Hr as [Hz _]. lia.
  - f_equal.
    destruct (Nat.lt_trichotomy a' k) as [Hlt | [Heq | Hgt]]; [| exact Heq |].
    + specialize (Hbefore a' Hlt).
      destruct (nth_outcome w g self url s a') as [r' | e']; [discriminate |].
      destruct Hr as [_ Hlim]. specialize (Hlim Hbefore). lia.
    + destruct (Hf k ltac:(lia)) as [Hfail _]. congruence.
Qed.

(** X1. An exception of the transport that is no request error is not
    caught: after [k] failed attempts it ends the call with [k + 1] requests
    sent, is raised as it is, and nothing is logged or slept after the
    request that raised it. *)
Theorem other_exceptions_are_not_retried w g self url s (k : nat) (e : exn) :
  let run := get_with_retry w g self url s in
  (k < Z.to_nat (MAX_RETRIES g))%nat ->
  (forall i : nat, (i < k)%nat ->
     request_failure (nth_outcome w g self url s i) = true) ->
  nth_outcome w g self url s k = Raise e ->
  is_RequestException e = false ->
  run.1 = Raise e /\
  attempts_made s run.2 = S k /\
  log_records (emitted s run.2) = warning_of w g self url s <$> seq 0 k /\
  last (emitted s run.2) = Some (Get (nth_request w g self url s k)).
Proof.
  intros run Hk Hbefore Ho He.
  assert (attempts_made s run.2 = S k) as Ha.
  { apply first_settled_attempt; [exact Hk | exact Hbefore |].
    rewrite Ho. exact He. }
  destruct (get_with_retry_facts w g self url s) as (_ & _ & _ & Ht & Hf & Hr).
  fold run in Ht, Hf, Hr. rewrite Ha in Ht, Hf, Hr. rewrite Ho in Hr.
  split; [apply Hr |]. split; [exact Ha |].
  rewrite Ht, seq_S, flat_map_app. cbn [flat_map Nat.add].
  rewrite app_nil_r. unfold attempt_events at 2 4. rewrite Ho.
  cbn [aftermath]. rewrite He.
  split.
  - rewrite log_records_app.
    rewrite log_records_earlier_attempts by (intros i Hi; apply Hf; lia).
    apply app_nil_r.
  - rewrite last_app. reflexivity.
Qed.

(** X3. The log of a call: one warning per attempt that failed with a
    request error, numbered from 1 and carrying the text of its error, in
    order; then, exactly when the call gives up (the final attempt failed
    too), one error record naming the URL.  A call that gives up has made
    all its attempts. *)
Theorem warnings_number_the_failed_attempts w g self url s :
  let run := get_with_retry w g self url s in
  let a := attempts_made s run.2 in
  let failed := if gave_up run.1 then a else (a - 1)%nat in
  log_records (emitted s run.2)
  = ((fun i : nat =>
        (WARNING, "Attempt " +:+ pretty (Z.of_nat i + 1) +:+ " failed: "
                  +:+ error_text (nth_outcome w g self url s i)))
     <$> seq 0 failed)
    ++ (if gave_up run.1
        then [(ERROR, "Max retries reached for " +:+ url)]
        else []) /\
  (forall i : nat, (i < failed)%nat ->
     request_failure (nth_outcome w g self url s i) = true) /\
  (gave_up run.1 = true -> a = Z.to_nat (MAX_RETRIES g)).
Proof.
  intros run a failed.
  destruct (get_with_retry_facts w g self url s) as (_ & _ & _ & Ht & Hf & Hr).
  fold run a in Ht, Hf, Hr. subst failed.
  change (fun i : nat => (WARNING, _)) with (warning_of w g self url s).
  rewrite Ht. clear Ht.
  destruct a as [| a'].
  - destruct Hr as [_ ->]. cbn. repeat split; intros; lia.
  - rewrite seq_S, flat_map_app. cbn [flat_map Nat.add]. rewrite app_nil_r.
    rewrite log_records_app.
    rewrite log_records_earlier_attempts by (intros i Hi; apply Hf; lia).
    unfold attempt_events.
    destruct (nth_outcome w g self url s a') as [r | e] eqn:Ho.
    + rewrite Hr. cbn [gave_up aftermath]. rewrite Nat.sub_succ, Nat.sub_0_r.
      split; [reflexivity |]. split; [| discriminate].
      intros i Hi. apply Hf. lia.
    + destruct Hr as [-> Hlim]. cbn [gave_up aftermath].
      destruct (is_RequestException e) eqn:He.
      * specialize (Hlim eq_refl).
        assert (Z.of_nat a' = MAX_RETRIES g - 1) as Hfinal by lia.
        rewrite (proj2 (Z.eqb_eq _ _) Hfinal).
        rewrite seq_S, fmap_app, <- app_assoc. cbn [fmap list_fmap Nat.add].
        unfold warning_of at 3. rewrite Ho. cbn [error_text].
        split; [reflexivity |]. split; [| intros _; exact Hlim].
        intros i Hi. destruct (decide (i = a')) as [-> | Hne].
        -- rewrite Ho. exact He.
        -- apply Hf. lia.
      * rewrite Nat.sub_succ, Nat.sub_0_r.
        split; [reflexivity |]. split; [| discriminate].
        intros i Hi. apply Hf. lia.
Qed.

(** X4. What a call returns is never a response with a status from 400 to
    599, and is the answer to the last request it sent.  A first answer with
    any other status (a 304 or a 100 as well as a 200) is returned at once,
    after one request. *)
Theorem returned_response_has_no_error_status w g self url s :
  let run := get_with_retry w g self url s in
  (forall r : Response, run.1 = Return (Some r) ->
     (status_code r < 400 \/ 600 <= status_code r) /\
     exists i : nat,
       attempts_made s run.2 = S i /\
       network w (gets s + i) (nth_request w g self url s i) = Return r) /\
  (forall r : Response,
     (0 < Z.to_nat (MAX_RETRIES g))%nat ->
     network w (gets s) (nth_request w g self url s 0) = Return r ->
     (status_code r < 400 \/ 600 <= status_code r) ->
     run.1 = Return (Some r) /\ attempts_made s run.2 = 1%nat).
Proof.
  intros run.
  destruct (get_with_retry_facts w g self url s) as (_ & _ & _ & _ & _ & Hr).
  fold run in Hr. split.
  - intros r Hrun.
    destruct (attempts_made s run.2) as [| a'].
    + destruct Hr as [_ Hnone]. congruence.
    + unfold nth_outcome, checked in Hr.
      destruct (network w (gets s + a') (nth_request w g self url s a'))
        as [r0 | e0] eqn:Hnet.
      * destruct ((400 <=? status_code r0) && (status_code r0 <? 600)) eqn:Hst.
        -- destruct Hr as [Hr _]. congruence.
        -- assert (r0 = r) as -> by congruence.
           split; [lia | eauto].
      * destruct Hr as [Hr _]. congruence.
  - intros r Hn Hnet Hst.
    assert (nth_outcome w g self url s 0 = Return r) as Ho.
    { unfold nth_outcome, checked. rewrite Nat.add_0_r, Hnet.
      destruct ((400 <=? status_code r) && (status_code r <? 600)) eqn:Hc;
        [lia | reflexivity]. }
    assert (attempts_made s run.2 = 1%nat) as Ha.
    { apply first_settled_attempt; [exact Hn | intros i Hi; lia |].
      rewrite Ho. reflexivity. }
    rewrite Ha, Ho in Hr. split; [exact Hr | exact Ha].
Qed.

(** ** __init__ and the headers *)

(** X5. Constructing a scraper takes one string of the generator and does
    nothing else: no request, no sleep, no log.  Every request the scraper
    then sends carries the [Referer] of the base URL and the
    [Accept-Language] set at construction, while its [User-Agent] is the one
    drawn for the attempt: the one drawn at construction stays on the
    session and is overridden each time. *)
Theorem constructed_scraper_headers w g s0 :
  exists self : NovaAutoScraper,
    __init__ w g s0
    = (Return self, State (gets s0) (S (uas s0)) (draws s0) (trace s0)) /\
    session_headers self !! "User-Agent" = Some (fake_useragent w (uas s0)) /\
    forall (url : string) (s : state),
      Forall (fun r : request =>
                req_headers r !! "Referer" = Some (BASE_URL g) /\
                req_headers r !! "Accept-Language" = Some "en-US,en;q=0.9")
             (get_calls (emitted s (get_with_retry w g self url s).2)) /\
      forall i : nat,
        get_calls (emitted s (get_with_retry w g self url s).2) !! i
        = Some (nth_request w g self url s i) ->
        req_headers (nth_request w g self url s i) !! "User-Agent"
        = Some (fake_useragent w (uas s + i)).
Proof.
  eexists. split; [reflexivity |]. cbn [session_headers].
  split; [unfold dict_update; apply lookup_union_Some_l, lookup_insert_eq |].
  intros url s.
  destruct (get_with_retry_facts w g
              (Scraper (dict_update default_headers
                          {[ "User-Agent" := fake_useragent w (uas s0);
                             "Accept-Language" := "en-US,en;q=0.9";
                             "Referer" := BASE_URL g ]})) url s)
    as (_ & _ & _ & Ht & _ & _).
  rewrite Ht, get_calls_attempts. split.
  - apply Forall_fmap, Forall_forall. intros i _.
    cbv [nth_request dict_update req_headers session_headers].
    split.
    + rewrite lookup_union_r by (apply lookup_singleton_ne; discriminate).
      apply lookup_union_Some_l.
      rewrite lookup_insert_ne by discriminate.
      rewrite lookup_insert_ne by discriminate.
      apply lookup_singleton_eq.
    + rewrite lookup_union_r by (apply lookup_singleton_ne; discriminate).
      apply lookup_union_Some_l.
      rewrite lookup_insert_ne by discriminate.
      apply lookup_insert_eq.
  - intros i _. apply nth_request_user_agent.
Qed.

(** ** get_with_retry: the time asleep *)

Lemma sleep_calls_app l1 l2 :
  sleep_calls (l1 ++ l2) = sleep_calls l1 ++ sleep_calls l2.
Proof. apply omap_app. Qed.

Lemma total_sleep_app l1 l2 :
  (total_sleep (l1 ++ l2) == total_sleep l1 + total_sleep l2)%Q.
Proof.
  unfold total_sleep. rewrite sleep_calls_app.
  induction (sleep_calls l1) as [| d l IH]; cbn [foldr app].
  - symmetry. apply Qplus_0_l.
  - rewrite IH. apply Qplus_assoc.
Qed.

(** The sleeps of [k] attempts each followed by its backoff. *)
Lemma total_sleep_earlier_attempts w g self url s (k : nat) :
  (forall i : nat, (i < k)%nat ->
     request_failure (nth_outcome w g self url s i) = true /\
     Z.of_nat i <> MAX_RETRIES g - 1) ->
  (total_sleep (flat_map (attempt_events w g self url s) (seq 0 k))
   == inject_Z (Z.of_nat k) * REQUEST_DELAY g + inject_Z (2 ^ Z.of_nat k - 1))%Q.
Proof.
  induction k as [| k IH]; intros Hf.
  - change (0 == inject_Z 0 * REQUEST_DELAY g + inject_Z 0)%Q. ring.
  - rewrite seq_S, flat_map_app, total_sleep_app.
    rewrite IH by (intros i Hi; apply Hf; lia).
    cbn [flat_map Nat.add]. rewrite app_nil_r.
    destruct (Hf k ltac:(lia)) as [Hfail Hnonfinal].
    unfold attempt_events.
    destruct (nth_outcome w g self url s k) as [r | e]; [discriminate |].
    cbn [request_failure] in Hfail. cbn [aftermath]. rewrite Hfail.
    rewrite (proj2 (Z.eqb_neq _ _) Hnonfinal).
    unfold total_sleep, sleep_calls. cbn [omap list_omap foldr].
    replace (2 ^ Z.of_nat (S k) - 1) with ((2 ^ Z.of_nat k - 1) + 2 ^ Z.of_nat k).
    2: { rewrite Nat2Z.inj_succ, Z.pow_succ_r by lia. lia. }
    replace (Z.of_nat (S k)) with (Z.of_nat k + 1) by lia.
    rewrite !inject_Z_plus. change (inject_Z 1) with 1%Q. ring.
Qed.

(** The last attempt made is followed by no sleep. *)
Lemma total_sleep_last_attempt w g self url s (a' : nat) :
  match nth_outcome w g self url s a' with
  | Return _ => True
  | Raise e => is_RequestException e = true -> Z.of_nat a' = MAX_RETRIES g - 1
  end ->
  (total_sleep (attempt_events w g self url s a') == REQUEST_DELAY g)%Q.
Proof.
  intros Hlast. unfold attempt_events.
  assert (sleep_calls (aftermath g url a' (nth_outcome w g self url s a')) = [])
    as Hnone.
  { destruct (nth_outcome w g self url s a') as [r | e]; [reflexivity |].
    cbn [aftermath]. destruct (is_RequestException e); [| reflexivity].
    rewrite (proj2 (Z.eqb_eq _ _) (Hlast eq_refl)). reflexivity. }
  unfold total_sleep.
  change (sleep_calls (Sleep ?d :: Get ?r :: ?c)) with (d :: sleep_calls c).
  rewrite Hnone. cbn [foldr]. apply Qplus_0_r.
Qed.

(** X6. The time a call spends asleep is fixed by the number [a] of its
    attempts: [a] request delays and the backoffs [1 + 2 + ... + 2^(a-2)],
    that is [a * REQUEST_DELAY + 2^(a-1) - 1] seconds (nothing without an
    attempt).  With a delay that is not negative, this is at most
    [N * REQUEST_DELAY + 2^(N-1) - 1] for [MAX_RETRIES = N]. *)
Theorem time_asleep_in_a_call w g self url s :
  let run := get_with_retry w g self url s in
  let a := attempts_made s run.2 in
  let n := Z.to_nat (MAX_RETRIES g) in
  (total_sleep (emitted s run.2)
   == inject_Z (Z.of_nat a) * REQUEST_DELAY g
      + inject_Z (2 ^ Z.of_nat (a - 1) - 1))%Q /\
  ((0 <= REQUEST_DELAY g)%Q ->
   (total_sleep (emitted s run.2)
    <= inject_Z (Z.of_nat n) * REQUEST_DELAY g
       + inject_Z (2 ^ Z.of_nat (n - 1) - 1))%Q).
Proof.
  intros run a n.
  destruct (get_with_retry_facts w g self url s) as (Ha & _ & _ & Ht & Hf & Hr).
  fold run a n in Ha, Ht, Hf, Hr.
  assert (total_sleep (emitted s run.2)
          == inject_Z (Z.of_nat a) * REQUEST_DELAY g
             + inject_Z (2 ^ Z.of_nat (a - 1) - 1))%Q as Htotal.
  { rewrite Ht. clear Ht. destruct a as [| a'].
    - change (0 == inject_Z 0 * REQUEST_DELAY g + inject_Z 0)%Q. ring.
    - rewrite seq_S, flat_map_app, total_sleep_app.
      rewrite total_sleep_earlier_attempts by (intros i Hi; apply Hf; lia).
      cbn [flat_map Nat.add]. rewrite app_nil_r.
      rewrite total_sleep_last_attempt.
      + rewrite Nat.sub_succ, Nat.sub_0_r.
        replace (Z.of_nat (S a')) with (Z.of_nat a' + 1) by lia.
        rewrite inject_Z_plus. change (inject_Z 1) with 1%Q. ring.
      + destruct (nth_outcome w g self url s a') as [r | e]; [exact I |].
        intros He. destruct Hr as [_ Hlim]. specialize (Hlim He). lia. }
  split; [exact Htotal |].
  intros Hd. rewrite Htotal. apply Qplus_le_compat.
  - apply Qmult_le_compat_r; [| exact Hd].
    rewrite <- Zle_Qle. lia.
  - rewrite <- Zle_Qle. apply Z.sub_le_mono_r.
    apply Z.pow_le_mono_r; lia.
Qed.

Lemma time_asleep_in_a_call_witness :
  (total_sleep
     (emitted initial
        (get_with_retry unreachable module_globals plain_scraper
           "https://novaautoland.com" initial).2)
   <= 3 * 3 + 3)%Q.
Proof.
  destruct (time_asleep_in_a_call unreachable module_globals plain_scraper
              "https://novaautoland.com" initial) as [_ Hbound].
  apply Hbound. unfold Qle; simpl; lia.
Defined.

(** ** scrape_vehicle_listings: requests and log *)

Section ScrapeMore.

Context {node : Type} {bs4 : Bs4 node} {urllib : Urllib}.

(** After the fetch a scrape only logs. *)
Lemma scrape_after_fetch w g self s :
  exists logs : list event,
    (scrape_vehicle_listings w g self s).2
    = add_events (fetch_step w g self s).2 logs /\
    Forall (fun e => is_log e = true) logs.
Proof.
  rewrite scrape_vehicle_listings_run.
  destruct (fetch_step w g self s) as [[[response |] | e] s1]; cbv zeta;
    cbn [snd].
  - destruct (BeautifulSoup (content response)) as [soup | e];
      [| eexists; split; [reflexivity | repeat constructor]].
    destruct (select soup "div.vehicle-listing") as [listings | e];
      [| eexists; split; [reflexivity | repeat constructor]].
    eexists. split; [reflexivity |].
    apply Forall_app. split; [| repeat constructor].
    unfold skipped. apply Forall_forall. intros ev Hev.
    apply list_elem_of_omap in Hev as (listing & _ & Hev).
    destruct (extraction g listing); [discriminate |].
    injection Hev as <-. reflexivity.
  - eexists. split; [reflexivity | repeat constructor].
  - eexists. split; [reflexivity | repeat constructor].
Qed.

Lemma get_calls_logs (logs : list event) :
  Forall (fun e => is_log e = true) logs -> get_calls logs = [].
Proof.
  induction 1 as [| e l He _ IH]; [reflexivity |].
  destruct e; try discriminate. exact IH.
Qed.

Lemma sleep_calls_logs (logs : list event) :
  Forall (fun e => is_log e = true) logs -> sleep_calls logs = [].
Proof.
  induction 1 as [| e l He _ IH]; [reflexivity |].
  destruct e; try discriminate. exact IH.
Qed.

(** X8. A scrape sends no request but those of its one fetch: at most
    [MAX_RETRIES] of them, every one to the base URL.  Parsing, selecting
    and extracting send nothing and sleep nothing, so the requests and the
    sleeps of the scrape are those of [get_with_retry] on the base URL. *)
Theorem scrape_requests_only_the_base_url w g self s :
  let run := scrape_vehicle_listings w g self s in
  let started := add_events s [Log INFO ("Starting scrape of " +:+ BASE_URL g)] in
  let fetch := get_with_retry w g self (BASE_URL g) started in
  get_calls (emitted s run.2) = get_calls (emitted started fetch.2) /\
  sleep_calls (emitted s run.2) = sleep_calls (emitted started fetch.2) /\
  (length (get_calls (emitted s run.2)) <= Z.to_nat (MAX_RETRIES g))%nat /\
  Forall (fun r : request => req_url r = BASE_URL g)
         (get_calls (emitted s run.2)).
Proof.
  intros run started fetch.
  destruct (scrape_after_fetch w g self s) as (logs & Hrun & Hlogs).
  fold run in Hrun. unfold fetch_step in Hrun. fold started fetch in Hrun.
  destruct (get_with_retry_facts w g self (BASE_URL g) started)
    as (Ha & _ & _ & Ht & _ & _).
  fold fetch in Ha, Ht.
  assert (trace fetch.2 = trace started ++ emitted started fetch.2) as Hfetch.
  { unfold emitted. rewrite <- (take_drop (length (trace started)) (trace fetch.2)) at 1.
    f_equal.
    destruct (get_with_retry_run w g self (BASE_URL g) started)
      as (a0 & _ & _ & _ & _ & Htr & _).
    fold fetch in Htr. rewrite Htr. apply take_app_length. }
  assert (emitted s run.2
          = Log INFO ("Starting scrape of " +:+ BASE_URL g)
            :: emitted started fetch.2 ++ logs) as Hemitted.
  { apply emitted_app. rewrite Hrun. unfold add_events at 1. cbn [trace].
    rewrite Hfetch. subst started. unfold add_events at 1. cbn [trace].
    rewrite <- !app_assoc. reflexivity. }
  rewrite Hemitted.
  change (get_calls (Log ?l ?m :: ?c)) with (get_calls c).
  change (sleep_calls (Log ?l ?m :: ?c)) with (sleep_calls c).
  rewrite get_calls_app, sleep_calls_app.
  rewrite (get_calls_logs logs Hlogs), (sleep_calls_logs logs Hlogs), !app_nil_r.
  split; [reflexivity |]. split; [reflexivity |]. split; [exact Ha |].
  rewrite Ht, get_calls_attempts. apply Forall_fmap, Forall_forall.
  intros i _. reflexivity.
Qed.

(** X7. When the page is fetched, parsed and its listings selected, every
    listing is accounted for: it either gives a record or is logged as an
    error, in the order of the listings, so the records and the error
    records together number the listings.  The last record of the log is
    the count of the vehicles returned. *)
Theorem every_listing_is_recorded_or_logged w g self s response soup
    (listings : list node) :
  let run := scrape_vehicle_listings w g self s in
  let fetch := fetch_step w g self s in
  fetch.1 = Return (Some response) ->
  BeautifulSoup (content response) = Return soup ->
  select soup "div.vehicle-listing" = Return listings ->
  exists vehicles : list vehicle,
    run.1 = Return vehicles /\
    log_records (emitted fetch.2 run.2)
    = omap (fun listing =>
              match extraction g listing with
              | Return _ => None
              | Raise e => Some (ERROR, "Error processing listing: " +:+ exn_str e)
              end) listings
      ++ [(INFO, "Successfully scraped " +:+ pretty (length vehicles)
                 +:+ " vehicles")] /\
    (length vehicles
     + length (filter (fun listing => raised (extraction g listing) = true)
                 listings)
     = length listings)%nat.
Proof.
  intros run fetch Hfetch Hsoup Hsel. subst run fetch.
  rewrite scrape_vehicle_listings_run.
  destruct (fetch_step w g self s) as [r s1]. cbn [fst snd] in *. subst r.
  rewrite Hsoup, Hsel. cbn [fst snd].
  exists (extracted g listings). split; [reflexivity |]. split.
  - unfold emitted, add_events. cbn [trace]. rewrite drop_app_length.
    rewrite log_records_app. f_equal.
    unfold skipped. clear.
    induction listings as [| listing rest IH]; [reflexivity |].
    cbn [omap list_omap].
    destruct (extraction g listing); cbn [omap list_omap log_records];
      [exact IH |].
    change (log_records (Log ?l ?m :: ?c)) with ((l, m) :: log_records c).
    f_equal. exact IH.
  - unfold extracted. clear.
    induction listings as [| listing rest IH]; [reflexivity |].
    cbn [omap list_omap]. rewrite filter_cons.
    destruct (extraction g listing); cbn [returned raised].
    + rewrite decide_False by discriminate. cbn [length]. lia.
    + rewrite decide_True by reflexivity. cbn [length]. lia.
Qed.

(** X2. With [MAX_RETRIES] at zero or below the loop body never runs:
    [get_with_retry] sends nothing, sleeps nothing, logs nothing and returns
    [None]; the scrape then fails on [response.content] and degrades to the
    empty list, with that failure as its only record after the start. *)
Theorem without_attempts_nothing_is_fetched w g self s :
  MAX_RETRIES g <= 0 ->
  (forall url s', get_with_retry w g self url s' = (Return None, s')) /\
  (scrape_vehicle_listings w g self s).1 = Return [] /\
  emitted s (scrape_vehicle_listings w g self s).2
  = [Log INFO ("Starting scrape of " +:+ BASE_URL g);
     Log ERROR "Scraping failed: 'NoneType' object has no attribute 'content'"].
Proof.
  intros Hn.
  assert (forall url s', get_with_retry w g self url s' = (Return None, s'))
    as Hnone by (intros; apply get_with_retry_without_attempts, Hn).
  split; [exact Hnone |].
  rewrite scrape_vehicle_listings_run. unfold fetch_step. rewrite Hnone.
  cbv zeta. cbn [fst snd]. split; [reflexivity |].
  apply emitted_app. unfold add_events; cbn [trace].
  rewrite <- app_assoc. reflexivity.
Qed.

End ScrapeMore.

(** ** app.py: the view *)

Section AppProofs.

Context {node : Type} {bs4 : Bs4 node} {urllib : Urllib}.

Lemma scrape_returns w g self s :
  exists vehicles : list vehicle,
    (scrape_vehicle_listings w g self s).1 = Return vehicles /\
    (forall e, (fetch_step w g self s).1 = Raise e -> vehicles = []).
Proof.
  rewrite scrape_vehicle_listings_run.
  destruct (fetch_step w g self s) as [[[response |] | e] s1]; cbv zeta;
    cbn [fst].
  - destruct (BeautifulSoup (content response)) as [soup | e];
      [| eexists; split; [reflexivity | discriminate]].
    destruct (select soup "div.vehicle-listing") as [listings | e];
      eexists; (split; [reflexivity | discriminate]).
  - eexists; split; [reflexivity | discriminate].
  - exists []. split; reflexivity.
Qed.

(** X9. The view constructs a scraper and scrapes with it.  Since the
    scrape returns a list whatever happens, the answer is 200 with the
    success envelope of that list, [count] being the number of items of
    [data], and the view logs nothing of its own.  A fetch that fails is
    therefore answered 200 with [status: success], [count: 0] and no data,
    not with the error envelope. *)
Theorem view_answers_success_even_when_the_fetch_fails w g s :
  let run := scrape_vehicles w g s in
  exists (self : NovaAutoScraper) (s1 : state) (vehicles : list vehicle),
    __init__ w g s = (Return self, s1) /\
    scrape_vehicle_listings w g self s1 = (Return vehicles, run.2) /\
    run.1 = Return (JObject [("status", JString "success");
                             ("count", JNumber (Z.of_nat (length vehicles)));
                             ("data", JArray (json_of_vehicle <$> vehicles))],
                    200) /\
    (forall e, (fetch_step w g self s1).1 = Raise e ->
       run.1 = Return (JObject [("status", JString "success");
                                ("count", JNumber 0);
                                ("data", JArray [])], 200)).
Proof.
  intros run. subst run.
  set (self := Scraper (dict_update default_headers
                          {[ "User-Agent" := fake_useragent w (uas s);
                             "Accept-Language" := "en-US,en;q=0.9";
                             "Referer" := BASE_URL g ]})).
  set (s1 := State (gets s) (S (uas s)) (draws s) (trace s)).
  assert (__init__ w g s = (Return self, s1)) as Hinit by reflexivity.
  destruct (scrape_returns w g self s1) as (vehicles & Hv & Hfail).
  destruct (scrape_vehicle_listings w g self s1) as [r s2] eqn:Hscrape.
  cbn [fst] in Hv. subst r.
  assert (scrape_vehicles w g s = (Return (success_envelope vehicles, 200), s2))
    as Hrun.
  { unfold scrape_vehicles, try_except, bind. rewrite Hinit, Hscrape.
    reflexivity. }
  rewrite Hrun. exists self, s1, vehicles. cbn [fst snd].
  split; [exact Hinit |]. split; [exact Hscrape |]. split; [reflexivity |].
  intros e He. rewrite (Hfail e He). reflexivity.
Qed.

(** X11. An attribute that is there but empty is not treated as missing.
    With [urllib]'s algorithm an anchor whose [href] is the empty string
    gives the base URL itself as the link, and an image whose [src] is the
    empty string gives the empty string as the image, neither gives
    [None]. *)
Theorem empty_attributes_are_not_missing g (listing : node) :
  (forall (anchor : node) (selector : string) (s : state),
     select_one listing selector = Return (Some anchor) ->
     has_attr anchor "href" = Return true ->
     getitem anchor "href" = Return EmptyString ->
     _get_link (urllib := urllib_parse) g listing selector s
     = (Return (Some (BASE_URL g)), s)) /\
  (forall (img : node) (selector : string) (s : state),
     select_one listing selector = Return (Some img) ->
     has_attr img "src" = Return true ->
     getitem img "src" = Return EmptyString ->
     _get_image listing selector s = (Return (Some EmptyString), s)).
Proof.
  split.
  - intros anchor selector s Hsel Hhas Hget.
    rewrite _get_link_run, Hsel, Hhas, Hget.
    cbn [urljoin urllib_parse]. unfold Url.urljoin.
    destruct (BASE_URL g); reflexivity.
  - intros img selector s Hsel Hhas Hget.
    rewrite _get_image_run, Hsel, Hhas, Hget. reflexivity.
Qed.

End AppProofs.

(** ** Text that is there but blank *)

Lemma lstrip_blank p (s : string) :
  Str.string_forall p s = true -> Str.lstrip p s = EmptyString.
Proof.
  induction s as [| a s IH]; [reflexivity |]. cbn [Str.string_forall Str.lstrip].
  intros Hall. apply andb_prop in Hall as [Ha Hs]. rewrite Ha. exact (IH Hs).
Qed.

Lemma strip_blank (s : string) :
  blank s = true -> Str.strip Dom.isspace s = EmptyString.
Proof. intros Hs. unfold Str.strip. rewrite (lstrip_blank _ s Hs). reflexivity. Qed.

Lemma descendants_of_strings name classes attrs (strings : list string) :
  Dom.descendants (Dom.Tag name classes attrs (Dom.NavigableString <$> strings))
  = Dom.NavigableString <$> strings.
Proof.
  induction strings as [| x l IH]; [reflexivity |].
  cbn [Dom.descendants fmap list_fmap] in *. rewrite IH. reflexivity.
Qed.

Section BlankText.

Context {urllib : Urllib} (html_parser : string -> Dom.tag).

#[local] Hint Extern 0 (Bs4 Dom.tag) =>
  exact (Dom.tag_bs4 html_parser) : typeclass_instances.

(** X10. A sub-element that is there but holds only whitespace (or
    nothing at all) is not treated as missing: [_get_text] gives the empty
    string for it, not [None]. *)
Theorem blank_text_is_empty_not_none (element : Dom.tag) (selector : string)
    (name : string) (classes : list string) (attrs : gmap string string)
    (strings : list string) (s : state) :
  select_one element selector
  = Return (Some (Dom.Tag name classes attrs (Dom.NavigableString <$> strings))) ->
  Forall (fun x => blank x = true) strings ->
  _get_text element selector s = (Return (Some EmptyString), s).
Proof.
  intros Hsel Hblank. rewrite _get_text_run, Hsel.
  cbn [get_text_strip Dom.tag_bs4]. unfold Dom.tag_get_text_strip.
  unfold Dom.all_strings_strip. rewrite descendants_of_strings.
  assert (omap (fun d : Dom.tag =>
                  match d with
                  | Dom.NavigableString x =>
                      if Url.nonempty (Str.strip Dom.isspace x)
                      then Some (Str.strip Dom.isspace x) else None
                  | Dom.Tag _ _ _ _ => None
                  end) (Dom.NavigableString <$> strings) = []) as ->.
  { clear Hsel. induction Hblank as [| x l Hx _ IH]; [reflexivity |].
    cbn [fmap list_fmap omap list_omap]. rewrite (strip_blank x Hx).
    cbn [Url.nonempty]. exact IH. }
  reflexivity.
Qed.

End BlankText.

(** ** More theorems at work *)

Lemma other_exceptions_are_not_retried_witness :
  let run := get_with_retry crashing module_globals plain_scraper
               "https://novaautoland.com" initial in
  run.1 = Raise (Exn RuntimeError "can't start new thread") /\
  attempts_made initial run.2 = 1%nat /\
  log_records (emitted initial run.2) = [].
Proof.
  intros run.
  destruct (other_exceptions_are_not_retried crashing module_globals
              plain_scraper "https://novaautoland.com" initial 0
              (Exn RuntimeError "can't start new thread"))
    as (Hr & Ha & Hlog & _).
  - simpl. lia.
  - intros i Hi. lia.
  - reflexivity.
  - reflexivity.
  - split; [exact Hr |]. split; [exact Ha | exact Hlog].
Defined.

Lemma without_attempts_nothing_is_fetched_witness :
  (scrape_vehicle_listings (bs4 := showroom_bs4) (serving showroom_html)
     without_retries plain_scraper initial).1 = Return [] /\
  get_with_retry (serving showroom_html) without_retries plain_scraper
    "https://novaautoland.com" initial = (Return None, initial).
Proof.
  destruct (without_attempts_nothing_is_fetched (bs4 := showroom_bs4)
              (serving showroom_html) without_retries plain_scraper initial)
    as (Hnone & Hscrape & _).
  - simpl. lia.
  - split; [exact Hscrape | apply Hnone].
Defined.

Lemma warnings_number_the_failed_attempts_witness :
  attempts_made initial
    (get_with_retry unreachable module_globals plain_scraper
       "https://novaautoland.com" initial).2 = 3%nat.
Proof.
  destruct (warnings_number_the_failed_attempts unreachable module_globals
              plain_scraper "https://novaautoland.com" initial)
    as (_ & _ & Hgave_up).
  apply Hgave_up. reflexivity.
Defined.

Lemma returned_response_has_no_error_status_witness :
  let run := get_with_retry unmodified module_globals plain_scraper
               "https://novaautoland.com" initial in
  run.1 = Return (Some (mkResponse 304 EmptyString)) /\
  attempts_made initial run.2 = 1%nat.
Proof.
  intros run.
  destruct (returned_response_has_no_error_status unmodified module_globals
              plain_scraper "https://novaautoland.com" initial) as [_ Hfirst].
  apply Hfirst.
  - simpl. lia.
  - reflexivity.
  - simpl. lia.
Defined.

Lemma constructed_scraper_headers_witness :
  exists self : NovaAutoScraper,
    (__init__ (serving showroom_html) module_globals initial).1 = Return self /\
    req_headers (nth_request (serving showroom_html) module_globals self
                   "https://novaautoland.com" initial 0) !! "User-Agent"
    = Some firefox_on_linux.
Proof.
  destruct (constructed_scraper_headers (serving showroom_html) module_globals
              initial) as (self & Hinit & _ & Hrequests).
  exists self. split; [rewrite Hinit; reflexivity |].
  destruct (Hrequests "https://novaautoland.com" initial) as [_ Hagent].
  apply (Hagent 0%nat).
  injection Hinit as <-. reflexivity.
Defined.

Lemma every_listing_is_recorded_or_logged_witness :
  exists vehicles : list vehicle,
    (scrape_vehicle_listings (bs4 := showroom_bs4) (serving showroom_html)
       module_globals plain_scraper initial).1 = Return vehicles /\
    (length vehicles + 1 = 4)%nat.
Proof.
  destruct (every_listing_is_recorded_or_logged (bs4 := showroom_bs4)
              (serving showroom_html) module_globals plain_scraper initial
              (mkResponse 200 showroom_html) showroom
              [civic; civic_unpriced; bad_host; bare])
    as (vehicles & Hrun & _ & Hcount).
  - reflexivity.
  - reflexivity.
  - reflexivity.
  - exists vehicles. split; [exact Hrun | exact Hcount].
Defined.

Lemma view_answers_success_even_when_the_fetch_fails_witness :
  (scrape_vehicles (bs4 := showroom_bs4) unreachable module_globals initial).1
  = Return (JObject [("status", JString "success");
                     ("count", JNumber 0);
                     ("data", JArray [])], 200).
Proof.
  destruct (view_answers_success_even_when_the_fetch_fails (bs4 := showroom_bs4)
              unreachable module_globals initial)
    as (self & s1 & vehicles & Hinit & _ & _ & Hfail).
  apply (Hfail (Exn ConnectionError "Connection refused")).
  injection Hinit as <- <-. reflexivity.
Defined.

Lemma blank_text_is_empty_not_none_witness :
  _get_text (bs4 := showroom_bs4) hollow ".price" initial
  = (Return (Some EmptyString), initial).
Proof.
  apply (blank_text_is_empty_not_none showroom_parser hollow ".price"
           "span" ["price"] ∅ ["   "] initial).
  - reflexivity.
  - repeat constructor.
Defined.

Lemma empty_attributes_are_not_missing_witness :
  _get_link (bs4 := showroom_bs4) module_globals hollow "a.vehicle-link" initial
  = (Return (Some "https://novaautoland.com"), initial) /\
  _get_image (bs4 := showroom_bs4) hollow "img.vehicle-image" initial
  = (Return (Some EmptyString), initial).
Proof.
  destruct (empty_attributes_are_not_missing (bs4 := showroom_bs4)
              module_globals hollow) as [Hlink Himage].
  split.
  - apply (Hlink (Dom.Tag "a" ["vehicle-link"] {[ "href" := EmptyString ]} []));
      reflexivity.
  - apply (Himage (Dom.Tag "img" ["vehicle-image"] {[ "src" := EmptyString ]} []));
      reflexivity.
Defined.
